(** * Gobbledegook: the Bluetooth management command encoder (src/Mgmt.cpp)

    A shallow embedding of [ggk::Mgmt]: the truncation helpers, the packed
    request structures each setter fills in, and the setters themselves as
    computations over an explicit world (the adapter singleton, the log, the
    function-local statics of [addAdvertising]). *)

From Stdlib Require Import Ascii String DecimalString.
From Stdlib Require Import ZArith List Bool Lia.
Import ListNotations.

Local Open Scope Z_scope.

(* ------------------------------------------------------------------------- *)
(** ** Bytes, fixed-width integers and their memory representation *)

(** A [uint8_t]/[char] cell of memory, as its value in [0, 256). *)
Definition byte := Z.

(** Conversion to [uint8_t] and [uint16_t] (what an assignment from a wider
    unsigned type does). *)
Definition to_uint8 (z : Z) : Z := z mod 256.
Definition to_uint16 (z : Z) : Z := z mod 65536.

(** The structures are written in native byte order; both orders are kept. *)
Inductive ByteOrder := LittleEndian | BigEndian.

(** The [n] low-order bytes of [z], least significant first. *)
Fixpoint le_bytes (n : nat) (z : Z) : list byte :=
  match n with
  | O => []
  | S k => z mod 256 :: le_bytes k (z / 256)
  end.

(** Object representation of an [n]-byte unsigned integer. *)
Definition repr (o : ByteOrder) (n : nat) (z : Z) : list byte :=
  match o with
  | LittleEndian => le_bytes n z
  | BigEndian => rev (le_bytes n z)
  end.

(** Reading an unsigned integer back from its representation. *)
Fixpoint le_value (bs : list byte) : Z :=
  match bs with
  | [] => 0
  | b :: r => b + 256 * le_value r
  end.

Definition value (o : ByteOrder) (bs : list byte) : Z :=
  match o with
  | LittleEndian => le_value bs
  | BigEndian => le_value (rev bs)
  end.

(* ------------------------------------------------------------------------- *)
(** ** [std::string] *)

(** A [std::string] is a counted sequence of [char]; it may hold a NUL. *)
Definition char_byte (c : ascii) : byte := Z.of_nat (nat_of_ascii c).

Definition string_bytes (s : string) : list byte :=
  map char_byte (list_ascii_of_string s).

(** [s.substr(0, n)] for [n <= s.length()]: library [substring 0 n s]. *)
Definition substr0 (s : string) (n : nat) : string := substring 0 n s.

(** What a [%s] conversion reads from [s.c_str()]: the characters up to the
    first NUL (the terminator, or a NUL held by the string itself). *)
Fixpoint c_str (bs : list byte) : list byte :=
  match bs with
  | [] => []
  | b :: r => if b =? 0 then [] else b :: c_str r
  end.

(** Decimal text of an unsigned value, as [operator<<] prints it. *)
Definition decimal (z : Z) : string :=
  NilZero.string_of_uint (N.to_uint (Z.to_N z)).

(* ------------------------------------------------------------------------- *)
(** ** Arrays of bytes: [memset], [memcpy], [snprintf] and indexed stores *)

(** Overwrites [buf] from offset [off] on with [src].  Every use in
    Mgmt.cpp stays inside the array ([off + length src <= length buf]). *)
Definition blit (buf : list byte) (off : nat) (src : list byte) : list byte :=
  firstn off buf ++ src ++ skipn (off + length src) buf.

(** [buf[i] = v] *)
Definition store (buf : list byte) (i : nat) (v : byte) : list byte :=
  blit buf i [v].

(** [memset(&buf[off], v, n)] *)
Definition memset (buf : list byte) (off : nat) (v : byte) (n : nat) : list byte :=
  blit buf off (repeat v n).

(** [memcpy(&buf[off], src, n)], [src] holding at least [n] bytes. *)
Definition memcpy (buf : list byte) (off : nat) (src : list byte) (n : nat)
  : list byte :=
  blit buf off (firstn n src).

(** [snprintf(buf, size, "%s", str)]: at most [size - 1] characters of the
    C string, then the terminating NUL. *)
Definition snprintf_s (buf : list byte) (size : nat) (str : list byte)
  : list byte :=
  match size with
  | O => buf
  | S m => blit buf 0 (firstn m (c_str str) ++ [0])
  end.

(* ------------------------------------------------------------------------- *)
(** ** Truncation helpers *)

(** Modelled from the spec: [kMaxAdvertisingNameLength] and
    [kMaxAdvertisingShortNameLength] are declared in Mgmt.h, which is not
    part of the sources at hand; the specification gives the full name a
    maximum of 248 bytes and the short name a maximum of 10 bytes. *)
Definition kMaxAdvertisingNameLength : nat := 248.
Definition kMaxAdvertisingShortNameLength : nat := 10.

Definition truncateName (name : string) : string :=
  if (String.length name <=? kMaxAdvertisingNameLength)%nat then name
  else substr0 name kMaxAdvertisingNameLength.

Definition truncateShortName (name : string) : string :=
  if (String.length name <=? kMaxAdvertisingShortNameLength)%nat then name
  else substr0 name kMaxAdvertisingShortNameLength.

(* ------------------------------------------------------------------------- *)
(** ** Command records *)

(** Modelled from the spec: [HciAdapter::HciHeader] is declared in
    HciAdapter.h, which is not part of the sources at hand; the command
    header is an opcode, a controller index and a payload length, 16 bits
    each, packed. *)
Record HciHeader := {
  code : Z;
  controllerId : Z;
  dataSize : Z
}.

Definition sizeof_HciHeader : nat := 2 + 2 + 2.

(** What [sendCommand] is handed: a reference to the header, and the bytes
    of the derived structure that lie behind it. *)
Record Request := {
  hdr : HciHeader;
  body : list byte
}.

(** [struct SRequest] of [setName] *)
Record SetNameRequest := {
  sn_hdr : HciHeader;
  sn_name : list byte;        (* char name[249] *)
  sn_shortName : list byte    (* char shortName[11] *)
}.

Definition sizeof_SetNameRequest : nat := sizeof_HciHeader + 249 + 11.

(** [struct SRequest] of [setDiscoverable] *)
Record SetDiscoverableRequest := {
  sd_hdr : HciHeader;
  sd_disc : Z;                (* uint8_t *)
  sd_timeout : Z              (* uint16_t *)
}.

Definition sizeof_SetDiscoverableRequest : nat := sizeof_HciHeader + 1 + 2.

(** [struct SRequest] of [setState] *)
Record SetStateRequest := {
  ss_hdr : HciHeader;
  ss_state : Z                (* uint8_t *)
}.

Definition sizeof_SetStateRequest : nat := sizeof_HciHeader + 1.

(** Constants of [addAdvertising] *)
Definition ADVERTISING_SHORTNAME_MAX_LEN : nat := 8.
Definition ADVERTISING_UUID_LEN : nat := 2.
Definition ADVERTISING_MAX_DATALEN : nat :=
  2 + ADVERTISING_SHORTNAME_MAX_LEN + 2 + ADVERTISING_UUID_LEN.

(** [struct SRequest] of [addAdvertising] *)
Record AddAdvertisingRequest := {
  aa_hdr : HciHeader;
  aa_instance : Z;            (* uint8_t *)
  aa_flags : Z;               (* uint32_t *)
  aa_duration : Z;            (* uint16_t *)
  aa_timeout : Z;             (* uint16_t *)
  aa_advDataLen : Z;          (* uint8_t *)
  aa_scanRspLen : Z;          (* uint8_t *)
  aa_data : list byte         (* uint8_t data[ADVERTISING_MAX_DATALEN] *)
}.

Definition sizeof_AddAdvertisingRequest : nat :=
  sizeof_HciHeader + 1 + 4 + 2 + 2 + 1 + 1 + ADVERTISING_MAX_DATALEN.

(** The target's byte order, which the packed structures are laid out in. *)
Class Target := { native : ByteOrder }.

Section Layout.
Context `{Target}.

(** The packed structures as [sendCommand] sees them through its
    [HciHeader &]. *)
Definition SetNameRequest_packed (r : SetNameRequest) : Request :=
  {| hdr := sn_hdr r; body := sn_name r ++ sn_shortName r |}.

Definition SetDiscoverableRequest_packed (r : SetDiscoverableRequest)
  : Request :=
  {| hdr := sd_hdr r; body := repr native 1 (sd_disc r) ++ repr native 2 (sd_timeout r) |}.

Definition SetStateRequest_packed (r : SetStateRequest) : Request :=
  {| hdr := ss_hdr r; body := repr native 1 (ss_state r) |}.

Definition AddAdvertisingRequest_packed (r : AddAdvertisingRequest)
  : Request :=
  {| hdr := aa_hdr r;
     body := repr native 1 (aa_instance r) ++ repr native 4 (aa_flags r)
             ++ repr native 2 (aa_duration r) ++ repr native 2 (aa_timeout r)
             ++ repr native 1 (aa_advDataLen r) ++ repr native 1 (aa_scanRspLen r)
             ++ aa_data r |}.
End Layout.

(** Modelled from the spec: the transport [HciAdapter::sendCommand] is not
    part of the sources at hand; a command record is the header followed by
    a payload of the declared length, so the payload submitted is the
    [dataSize] bytes behind the header. *)
Definition payload (r : Request) : list byte :=
  firstn (Z.to_nat (dataSize (hdr r))) (body r).

(* ------------------------------------------------------------------------- *)
(** ** The collaborators: adapter transport, command codes, logger *)

(** The [HciAdapter] singleton.  Its state is opaque; [sendCommand] blocks
    and answers with a boolean.  [kCommandCodeNames] is its table of
    opcode names, read for diagnostics only. *)
Class HciAdapter := {
  Transport : Type;
  sync : Z -> Transport -> Transport;
  sendCommand : Request -> Transport -> bool * Transport;
  kCommandCodeNames : Z -> string
}.

(** The opcode enumerators of Mgmt.h, whose values the sources at hand do
    not give. *)
Class CommandCodes := {
  ESetPoweredCommand : Z;
  ESetDiscoverableCommand : Z;
  ESetConnectableCommand : Z;
  ESetBondableCommand : Z;
  ESetLowEnergyCommand : Z;
  ESetLocalNameCommand : Z;
  ESetAdvertisingCommand : Z;
  ESetBREDRCommand : Z;
  ESetSecureConnectionsCommand : Z;
  EAddAdvertisingCommand : Z
}.

Inductive LogLevel := Debug | Warn.

Definition is_warn (e : LogLevel * string) : bool :=
  match fst e with Warn => true | Debug => false end.

(** An [Mgmt] object. *)
Record Mgmt := { controllerIndex : Z }.

(* ------------------------------------------------------------------------- *)
(** ** The world the setters run in *)

Section World.
Context `{HciAdapter}.

Record World := {
  adapter : Transport;               (* HciAdapter::getInstance() *)
  issued : list Request;             (* every record given to sendCommand, oldest first *)
  logged : list (LogLevel * string); (* what Logger received, oldest first *)
  kShortName : option string;        (* static of addAdvertising; None before its initialisation *)
  kUuid : option Z;                  (* static of addAdvertising; None before its initialisation *)
  residue : nat -> byte              (* what an uninitialised local happens to hold *)
}.

(** Process start: nothing sent, nothing logged, statics not yet
    initialised. *)
Definition startup (a : Transport) (junk : nat -> byte) : World :=
  {| adapter := a; issued := []; logged := []; kShortName := None;
     kUuid := None; residue := junk |}.

(** Computations: a state transformer that may have no defined
    behaviour ([None]). *)
Definition M (A : Type) : Type := World -> option (A * World).

Definition ret {A} (a : A) : M A := fun w => Some (a, w).

Definition bind {A B} (m : M A) (k : A -> M B) : M B :=
  fun w => match m w with
           | Some (a, w') => k a w'
           | None => None
           end.

Definition undefined {A} : M A := fun _ => None.
End World.

Notation "x <- m ;; k" := (bind m (fun x => k))
  (at level 61, m at next level, right associativity).
Notation "m ;;; k" := (bind m (fun _ => k))
  (at level 61, right associativity).

Section Effects.
Context `{HciAdapter}.

(** [HciAdapter::getInstance().sendCommand(request)] *)
Definition HciAdapter_sendCommand (r : Request) : M bool :=
  fun w =>
    let '(ok, a) := sendCommand r (adapter w) in
    Some (ok, {| adapter := a; issued := issued w ++ [r]; logged := logged w;
                 kShortName := kShortName w; kUuid := kUuid w;
                 residue := residue w |}).

(** [HciAdapter::getInstance().sync(controllerIndex)] *)
Definition HciAdapter_sync (idx : Z) : M unit :=
  fun w =>
    Some (tt, {| adapter := sync idx (adapter w); issued := issued w;
                 logged := logged w; kShortName := kShortName w;
                 kUuid := kUuid w; residue := residue w |}).

Definition Logger_log (l : LogLevel) (msg : string) : M unit :=
  fun w =>
    Some (tt, {| adapter := adapter w; issued := issued w;
                 logged := logged w ++ [(l, msg)];
                 kShortName := kShortName w; kUuid := kUuid w;
                 residue := residue w |}).

Definition Logger_warn := Logger_log Warn.
Definition Logger_debug := Logger_log Debug.

(** The contents of a local array before anything is written to it. *)
Definition uninitialized (n : nat) : M (list byte) :=
  fun w => Some (map (residue w) (seq 0 n), w).

(** [*p] for a [const uint16_t *p]: the pointee, or no defined behaviour
    when [p] is null. *)
Definition deref (p : option Z) : M Z :=
  match p with
  | Some v => ret v
  | None => undefined
  end.

(** [static std::string kShortName = init;]  The initialiser runs the
    first time control passes through the declaration only. *)
Definition static_kShortName (init : M string) : M string :=
  fun w =>
    match kShortName w with
    | Some s => Some (s, w)
    | None =>
        match init w with
        | Some (s, w') =>
            Some (s, {| adapter := adapter w'; issued := issued w';
                        logged := logged w'; kShortName := Some s;
                        kUuid := kUuid w'; residue := residue w' |})
        | None => None
        end
    end.

(** [static const uint16_t kUuid = init;] *)
Definition static_kUuid (init : M Z) : M Z :=
  fun w =>
    match kUuid w with
    | Some u => Some (u, w)
    | None =>
        match init w with
        | Some (u, w') =>
            Some (u, {| adapter := adapter w'; issued := issued w';
                        logged := logged w'; kShortName := kShortName w';
                        kUuid := Some u; residue := residue w' |})
        | None => None
        end
    end.
End Effects.

(* ------------------------------------------------------------------------- *)
(** ** The setters of [Mgmt] *)

Section Encoder.
Context `{Target} `{HciAdapter} `{CommandCodes}.

(** [Mgmt::Mgmt(controllerIndex)] *)
Definition Mgmt_new (idx : Z) : M Mgmt :=
  HciAdapter_sync idx ;;;
  ret {| controllerIndex := idx |}.

(** The record [setName] fills in; [name0] and [shortName0] are the two
    arrays as the declaration [SRequest request;] leaves them. *)
Definition setName_request (this : Mgmt) (name shortName : string)
    (name0 shortName0 : list byte) : SetNameRequest :=
  let name := truncateName name in
  let shortName := truncateShortName shortName in
  let request_code := to_uint16 ESetLocalNameCommand in
  let request_controllerId := controllerIndex this in
  let request_dataSize :=
    to_uint16 (Z.of_nat sizeof_SetNameRequest - Z.of_nat sizeof_HciHeader) in
  let request_name := memset name0 0 0 249 in
  let request_name := snprintf_s request_name 249 (string_bytes name) in
  let request_shortName := memset shortName0 0 0 11 in
  let request_shortName :=
    snprintf_s request_shortName 11 (string_bytes shortName) in
  {| sn_hdr := {| code := request_code; controllerId := request_controllerId;
                  dataSize := request_dataSize |};
     sn_name := request_name;
     sn_shortName := request_shortName |}.

Definition setName (this : Mgmt) (name shortName : string) : M bool :=
  name0 <- uninitialized 249 ;;
  shortName0 <- uninitialized 11 ;;
  let request := setName_request this name shortName name0 shortName0 in
  ok <- HciAdapter_sendCommand (SetNameRequest_packed request) ;;
  if negb ok then
    Logger_warn "  + Failed to set name" ;;;
    ret false
  else ret true.

Definition setDiscoverable_request (this : Mgmt) (disc timeout : Z)
  : SetDiscoverableRequest :=
  {| sd_hdr := {| code := to_uint16 ESetDiscoverableCommand;
                  controllerId := controllerIndex this;
                  dataSize := to_uint16 (Z.of_nat sizeof_SetDiscoverableRequest
                                         - Z.of_nat sizeof_HciHeader) |};
     sd_disc := disc;
     sd_timeout := timeout |}.

Definition setDiscoverable (this : Mgmt) (disc timeout : Z) : M bool :=
  let request := setDiscoverable_request this disc timeout in
  ok <- HciAdapter_sendCommand (SetDiscoverableRequest_packed request) ;;
  if negb ok then
    Logger_warn "  + Failed to set discoverable" ;;;
    ret false
  else ret true.

Definition setState_request (commandCode controllerId newState : Z)
  : SetStateRequest :=
  {| ss_hdr := {| code := commandCode;
                  controllerId := controllerId;
                  dataSize := to_uint16 (Z.of_nat sizeof_SetStateRequest
                                         - Z.of_nat sizeof_HciHeader) |};
     ss_state := newState |}.

Definition setState (commandCode controllerId newState : Z) : M bool :=
  let request := setState_request commandCode controllerId newState in
  ok <- HciAdapter_sendCommand (SetStateRequest_packed request) ;;
  if negb ok then
    Logger_warn ("  + Failed to set " ++ kCommandCodeNames commandCode
                 ++ " state to: " ++ decimal newState)%string ;;;
    ret false
  else ret true.

Definition setPowered (this : Mgmt) (newState : bool) : M bool :=
  setState (to_uint16 ESetPoweredCommand) (controllerIndex this)
           (if newState then 1 else 0).

Definition setBredr (this : Mgmt) (newState : bool) : M bool :=
  setState (to_uint16 ESetBREDRCommand) (controllerIndex this)
           (if newState then 1 else 0).

Definition setSecureConnections (this : Mgmt) (newState : Z) : M bool :=
  setState (to_uint16 ESetSecureConnectionsCommand) (controllerIndex this)
           newState.

Definition setBondable (this : Mgmt) (newState : bool) : M bool :=
  setState (to_uint16 ESetBondableCommand) (controllerIndex this)
           (if newState then 1 else 0).

Definition setConnectable (this : Mgmt) (newState : bool) : M bool :=
  setState (to_uint16 ESetConnectableCommand) (controllerIndex this)
           (if newState then 1 else 0).

Definition setLE (this : Mgmt) (newState : bool) : M bool :=
  setState (to_uint16 ESetLowEnergyCommand) (controllerIndex this)
           (if newState then 1 else 0).

Definition setAdvertising (this : Mgmt) (newState : Z) : M bool :=
  setState (to_uint16 ESetAdvertisingCommand) (controllerIndex this)
           newState.

(** The record [addAdvertising] fills in from the short name and the
    UUID it has settled on; [data0] is [request.data] as the declaration
    leaves it. *)
Definition addAdvertising_request (this : Mgmt) (shortName : string)
    (uuid : Z) (data0 : list byte) : AddAdvertisingRequest :=
  let shortNameEffectiveLen :=
    Nat.min ADVERTISING_SHORTNAME_MAX_LEN (String.length shortName) in
  let request_code := to_uint16 EAddAdvertisingCommand in
  let request_controllerId := controllerIndex this in
  let request_dataSize :=
    to_uint16 (Z.of_nat sizeof_AddAdvertisingRequest - Z.of_nat sizeof_HciHeader
               - (Z.of_nat ADVERTISING_SHORTNAME_MAX_LEN
                  - Z.of_nat shortNameEffectiveLen)) in
  let request_instance := 1 in
  let request_flags := 3 in
  let request_duration := 0 in
  let request_timeout := 0 in
  let request_advDataLen :=
    to_uint8 (Z.of_nat ADVERTISING_MAX_DATALEN
              - (Z.of_nat ADVERTISING_SHORTNAME_MAX_LEN
                 - Z.of_nat shortNameEffectiveLen)) in
  let request_scanRspLen := 0 in
  let data := store data0 0 (to_uint8 (Z.of_nat ADVERTISING_UUID_LEN + 1)) in
  let data := store data 1 3 in
  let data := memcpy data 2 (repr native 2 uuid) ADVERTISING_UUID_LEN in
  let data := store data (2 + ADVERTISING_UUID_LEN)
                    (to_uint8 (1 + Z.of_nat shortNameEffectiveLen)) in
  let data := store data (3 + ADVERTISING_UUID_LEN) 8 in
  let data := memset data (4 + ADVERTISING_UUID_LEN) 0
                     ADVERTISING_SHORTNAME_MAX_LEN in
  let data := memcpy data (4 + ADVERTISING_UUID_LEN)
                     (string_bytes shortName ++ [0]) shortNameEffectiveLen in
  {| aa_hdr := {| code := request_code; controllerId := request_controllerId;
                  dataSize := request_dataSize |};
     aa_instance := request_instance;
     aa_flags := request_flags;
     aa_duration := request_duration;
     aa_timeout := request_timeout;
     aa_advDataLen := request_advDataLen;
     aa_scanRspLen := request_scanRspLen;
     aa_data := data |}.

(** [uuid] is the pointer argument: [None] for [nullptr], otherwise the
    [uint16_t] it points to. *)
Definition addAdvertising (this : Mgmt) (shortName : string)
    (uuid : option Z) : M bool :=
  kShortName_ <- static_kShortName (ret shortName) ;;
  kUuid_ <- static_kUuid (deref uuid) ;;
  let '(shortName, uuid) :=
    match uuid with
    | None => (kShortName_, Some kUuid_)
    | Some _ => (shortName, uuid)
    end in
  u <- deref uuid ;;
  Logger_debug ("addAdvertising()" ++ shortName ++ ": " ++ decimal u)%string ;;;
  data0 <- uninitialized ADVERTISING_MAX_DATALEN ;;
  let request := addAdvertising_request this shortName u data0 in
  ok <- HciAdapter_sendCommand (AddAdvertisingRequest_packed request) ;;
  if negb ok then
    Logger_warn "  + Failed to start advertising with UUID" ;;;
    ret false
  else ret true.

(** A call of one public operation on an [Mgmt] object. *)
Inductive Call :=
| CallSetName (name shortName : string)
| CallSetDiscoverable (disc timeout : Z)
| CallSetState (commandCode controllerId newState : Z)
| CallSetPowered (newState : bool)
| CallSetBredr (newState : bool)
| CallSetSecureConnections (newState : Z)
| CallSetBondable (newState : bool)
| CallSetConnectable (newState : bool)
| CallSetLE (newState : bool)
| CallSetAdvertising (newState : Z)
| CallAddAdvertising (shortName : string) (uuid : option Z).

Definition invoke (this : Mgmt) (c : Call) : M bool :=
  match c with
  | CallSetName name shortName => setName this name shortName
  | CallSetDiscoverable disc timeout => setDiscoverable this disc timeout
  | CallSetState commandCode controllerId newState =>
      setState commandCode controllerId newState
  | CallSetPowered b => setPowered this b
  | CallSetBredr b => setBredr this b
  | CallSetSecureConnections s => setSecureConnections this s
  | CallSetBondable b => setBondable this b
  | CallSetConnectable b => setConnectable this b
  | CallSetLE b => setLE this b
  | CallSetAdvertising s => setAdvertising this s
  | CallAddAdvertising shortName uuid => addAdvertising this shortName uuid
  end.

(** A client program: calls on (possibly different) [Mgmt] objects, one
    after the other; the results are collected in call order. *)
Fixpoint run (calls : list (Mgmt * Call)) : M (list bool) :=
  match calls with
  | [] => ret []
  | (this, c) :: rest =>
      b <- invoke this c ;;
      bs <- run rest ;;
      ret (b :: bs)
  end.
End Encoder.

(* ------------------------------------------------------------------------- *)
(** ** A concrete platform, for closed examples *)

(** A little-endian target. *)
Definition le_target : Target := {| native := LittleEndian |}.

(** A transport that answers from a script: each [sendCommand] consumes the
    next answer, and succeeds once the script is exhausted. *)
Definition scripted_adapter : HciAdapter :=
  {| Transport := list bool;
     sync := fun _ t => t;
     sendCommand := fun _ t => match t with
                               | [] => (true, [])
                               | b :: rest => (b, rest)
                               end;
     kCommandCodeNames := fun _ => "Command"%string |}.

(** The opcodes as the kernel's management interface numbers them. *)
Definition kernel_codes : CommandCodes :=
  {| ESetPoweredCommand := 0x0005;
     ESetDiscoverableCommand := 0x0006;
     ESetConnectableCommand := 0x0007;
     ESetBondableCommand := 0x0009;
     ESetLowEnergyCommand := 0x000D;
     ESetLocalNameCommand := 0x000F;
     ESetAdvertisingCommand := 0x0029;
     ESetBREDRCommand := 0x002A;
     ESetSecureConnectionsCommand := 0x002D;
     EAddAdvertisingCommand := 0x003E |}.

(** A fresh process on that platform whose transport will answer with
    [script]; uninitialised memory reads as 0xAA. *)
Definition boot (script : list bool) : @World scripted_adapter :=
  @startup scripted_adapter script (fun _ => 0xAA).

(** The first controller. *)
Definition hci0 : Mgmt := {| controllerIndex := 0 |}.

(** A name of 300 characters and a short name of 10. *)
Definition long_name : string := string_of_list_ascii (repeat "n"%char 300).
Definition ten_chars : string := "ABCDEFGHIJ".

(** Two advertisements with different names and UUIDs, one after the
    other, and the world they leave behind. *)
Definition two_advertisements : list (Mgmt * Call) :=
  [ (hci0, CallAddAdvertising "A" (Some 1));
    (hci0, CallAddAdvertising "B" (Some 2)) ].

Definition after_two_advertisements : @World scripted_adapter :=
  match @run le_target scripted_adapter kernel_codes two_advertisements (boot [])
  with
  | Some (_, w) => w
  | None => boot []
  end.

(** A program that powers the adapter on and then advertises with a null
    UUID pointer, never having advertised before. *)
Definition null_first : list (Mgmt * Call) :=
  [ (hci0, CallSetPowered true);
    (hci0, CallAddAdvertising "A" None) ].

(* ------------------------------------------------------------------------- *)
(** ** Vocabulary of the properties *)

Section Vocabulary.
Context `{Target} `{HciAdapter} `{CommandCodes}.

(** An uninitialised local array of [n] bytes in world [w]. *)
Definition local_array (w : World) (n : nat) : list byte :=
  map (residue w) (seq 0 n).

(** Submitting [r] once from [w]: the transport's answer, and the world
    left behind, where [dbg] was logged before the submission, [msg] is
    the warning kept for a failure, and [kS], [kU] are the statics. *)
Definition submitted (w : World) (r : Request)
    (dbg : list (LogLevel * string)) (msg : string)
    (kS : option string) (kU : option Z) : bool * World :=
  let '(ok, a) := sendCommand r (adapter w) in
  (ok, {| adapter := a;
          issued := issued w ++ [r];
          logged := (logged w ++ dbg) ++ (if ok then [] else [(Warn, msg)]);
          kShortName := kS;
          kUuid := kU;
          residue := residue w |}).

(** A call that dereferences no null pointer: anything but an
    [addAdvertising] with a null [uuid] while [kUuid] is still to be
    initialised. *)
Definition null_safe (c : Call) (w : World) : Prop :=
  match c with
  | CallAddAdvertising _ None => kUuid w <> None
  | _ => True
  end.

(** The short name [addAdvertising] encodes: its argument, or the cached
    one when [uuid] is null. *)
Definition encoded_short_name (w : World) (shortName : string)
    (uuid : option Z) : string :=
  match uuid, kShortName w with
  | None, Some k => k
  | _, _ => shortName
  end.

(** Capacity of the short-name element a call leaves unused. *)
Definition unused_capacity (w : World) (c : Call) : nat :=
  match c with
  | CallAddAdvertising shortName uuid =>
      ADVERTISING_SHORTNAME_MAX_LEN
      - Nat.min ADVERTISING_SHORTNAME_MAX_LEN
                (String.length (encoded_short_name w shortName uuid))
  | _ => 0
  end.

(** The arguments of the first [addAdvertising] call of a program. *)
Fixpoint first_advertising (calls : list (Mgmt * Call))
  : option (string * option Z) :=
  match calls with
  | [] => None
  | (_, CallAddAdvertising shortName uuid) :: _ => Some (shortName, uuid)
  | _ :: rest => first_advertising rest
  end.

(** The arguments of the most recent [addAdvertising] call of a program
    that had a non-null [uuid]. *)
Fixpoint last_advertising_non_null (calls : list (Mgmt * Call))
  : option (string * Z) :=
  match calls with
  | [] => None
  | (_, c) :: rest =>
      match last_advertising_non_null rest, c with
      | Some p, _ => Some p
      | None, CallAddAdvertising shortName (Some u) => Some (shortName, u)
      | None, _ => None
      end
  end.

(** The advertising data block as the protocol lays it out: the UUID
    element, then the short-name element holding [n] name bytes. *)
Definition advertising_data_block (uuid : Z) (name : list byte) (n : nat)
  : list byte :=
  [3; 3] ++ repr native 2 uuid ++ [1 + Z.of_nat n; 8] ++ firstn n name.

(** The fixed fields of the [addAdvertising] payload: instance, flags,
    duration, timeout, advertising-data length, scan-response length. *)
Definition advertising_fixed_fields (advDataLen : Z) : list byte :=
  [1] ++ repr native 4 3 ++ repr native 2 0 ++ repr native 2 0
      ++ [advDataLen] ++ [0].
End Vocabulary.

(* ------------------------------------------------------------------------- *)
(** ** Vocabulary of the further properties *)

(** A name that holds a NUL: "ab", NUL, "cd". *)
Definition nul_name : string :=
  String "a" (String "b" (String Ascii.zero (String "c" (String "d" EmptyString)))).

Section Reading.
Context `{Target} `{HciAdapter} `{CommandCodes}.

(** The opcode a call puts in the header. *)
Definition opcode_of (c : Call) : Z :=
  match c with
  | CallSetName _ _ => to_uint16 ESetLocalNameCommand
  | CallSetDiscoverable _ _ => to_uint16 ESetDiscoverableCommand
  | CallSetState commandCode _ _ => commandCode
  | CallSetPowered _ => to_uint16 ESetPoweredCommand
  | CallSetBredr _ => to_uint16 ESetBREDRCommand
  | CallSetSecureConnections _ => to_uint16 ESetSecureConnectionsCommand
  | CallSetBondable _ => to_uint16 ESetBondableCommand
  | CallSetConnectable _ => to_uint16 ESetConnectableCommand
  | CallSetLE _ => to_uint16 ESetLowEnergyCommand
  | CallSetAdvertising _ => to_uint16 ESetAdvertisingCommand
  | CallAddAdvertising _ _ => to_uint16 EAddAdvertisingCommand
  end.

(** The controller a call addresses: the object's, except for [setState],
    which is told. *)
Definition controller_of (this : Mgmt) (c : Call) : Z :=
  match c with
  | CallSetState _ controllerId _ => controllerId
  | _ => controllerIndex this
  end.

(** The state a call of the [setState] family asks for. *)
Definition state_argument (c : Call) : option Z :=
  match c with
  | CallSetState _ _ newState => Some newState
  | CallSetPowered b | CallSetBredr b | CallSetBondable b
  | CallSetConnectable b | CallSetLE b => Some (if b then 1 else 0)
  | CallSetSecureConnections s | CallSetAdvertising s => Some s
  | CallSetName _ _ | CallSetDiscoverable _ _ | CallAddAdvertising _ _ => None
  end.

(** The record a call builds in world [w]. *)
Definition record_of (this : Mgmt) (c : Call) (w : World) : Request :=
  match c with
  | CallSetName name shortName =>
      SetNameRequest_packed
        (setName_request this name shortName
           (local_array w 249) (local_array w 11))
  | CallSetDiscoverable disc timeout =>
      SetDiscoverableRequest_packed (setDiscoverable_request this disc timeout)
  | CallAddAdvertising shortName uuid =>
      AddAdvertisingRequest_packed
        (addAdvertising_request this (encoded_short_name w shortName uuid)
           (match uuid, kUuid w with
            | Some u, _ => u
            | None, Some k => k
            | None, None => 0
            end)
           (local_array w ADVERTISING_MAX_DATALEN))
  | _ =>
      SetStateRequest_packed
        (setState_request (opcode_of c) (controller_of this c)
           (match state_argument c with Some s => s | None => 0 end))
  end.

(** The same world with other contents in its uninitialised memory. *)
Definition with_residue (w : World) (junk : nat -> byte) : World :=
  {| adapter := adapter w; issued := issued w; logged := logged w;
     kShortName := kShortName w; kUuid := kUuid w; residue := junk |}.

(** What the transport answers to a sequence of records, and the state it
    is left in. *)
Fixpoint transport_answers (rs : list Request) (a : Transport)
  : list bool * Transport :=
  match rs with
  | [] => ([], a)
  | r :: rest =>
      let '(b, a1) := sendCommand r a in
      let '(bs, a2) := transport_answers rest a1 in
      (b :: bs, a2)
  end.

(** The values of [uint8_t] and of [uint16_t]. *)
Definition is_uint8 (z : Z) : Prop := 0 <= z < 256.
Definition is_uint16 (z : Z) : Prop := 0 <= z < 65536.

(** A call as the parameter types of Mgmt.h admit it: the object's
    controller index and every integer argument within its type. *)
Definition well_typed (this : Mgmt) (c : Call) : Prop :=
  is_uint16 (controllerIndex this)
  /\ match c with
     | CallSetDiscoverable disc timeout => is_uint8 disc /\ is_uint16 timeout
     | CallSetState commandCode controllerId newState =>
         is_uint16 commandCode /\ is_uint16 controllerId /\ is_uint8 newState
     | CallSetSecureConnections s | CallSetAdvertising s => is_uint8 s
     | CallAddAdvertising _ (Some u) => is_uint16 u
     | _ => True
     end.

(** Constructing an [Mgmt] for controller [idx] and making one call on it. *)
Definition construct_and_call (idx : Z) (c : Call) : M (Mgmt * bool) :=
  this <- Mgmt_new idx ;;
  b <- invoke this c ;;
  ret (this, b).
End Reading.

(* ------------------------------------------------------------------------- *)
(** * Properties *)

(** ** Lists and strings *)

Lemma skipn_repeat_sub {A} (x : A) (k n : nat) :
  skipn k (repeat x n) = repeat x (n - k).
Proof.
  revert n; induction k as [|k IH]; intros [|n]; simpl; auto.
Qed.

Lemma blit_whole (buf src : list byte) :
  length src = length buf -> blit buf 0 src = src.
Proof.
  intros E. unfold blit. simpl.
  rewrite skipn_all2 by lia. now rewrite app_nil_r.
Qed.

Lemma memset_whole (buf : list byte) (v : byte) (n : nat) :
  length buf = n -> memset buf 0 v n = repeat v n.
Proof.
  intros E. unfold memset. apply blit_whole. now rewrite repeat_length.
Qed.

Lemma length_uninit (f : nat -> byte) (n : nat) :
  length (map f (seq 0 n)) = n.
Proof. now rewrite length_map, length_seq. Qed.

(** Writing a string into a zeroed array leaves it NUL-padded. *)
Lemma snprintf_s_zeroed (m : nat) (str : list byte) :
  let text := firstn m (c_str str) in
  snprintf_s (repeat 0 (S m)) (S m) str = text ++ repeat 0 (S m - length text).
Proof.
  intros text. unfold snprintf_s, blit. fold text.
  assert (L : (length text <= m)%nat).
  { unfold text. rewrite length_firstn. lia. }
  rewrite skipn_repeat_sub, length_app.
  change (firstn 0 (repeat 0 (S m))) with (@nil byte).
  change (length [0]) with 1%nat.
  rewrite app_nil_l, <- app_assoc. f_equal.
  replace (S m - length text)%nat with (1 + (S m - (0 + (length text + 1))))%nat by lia.
  reflexivity.
Qed.

Lemma c_str_no_nul (bs : list byte) : ~ In 0 (c_str bs).
Proof.
  induction bs as [|b r IH]; simpl; auto.
  destruct (Z.eqb_spec b 0); simpl; auto.
  intros [E | I]; auto.
Qed.

Lemma c_str_id (bs : list byte) : ~ In 0 bs -> c_str bs = bs.
Proof.
  induction bs as [|b r IH]; simpl; auto.
  intros N. destruct (Z.eqb_spec b 0) as [E | E].
  - exfalso. apply N. now left.
  - f_equal. apply IH. intros I. apply N. now right.
Qed.

Lemma length_string_bytes (s : string) :
  length (string_bytes s) = String.length s.
Proof.
  unfold string_bytes. rewrite length_map.
  induction s; simpl; auto.
Qed.

Lemma length_substr0 (s : string) (n : nat) :
  (n <= String.length s)%nat -> String.length (substr0 s n) = n.
Proof.
  unfold substr0. revert n; induction s as [|c s IH]; intros [|n] L; simpl in *;
    try lia; auto.
  f_equal. apply IH. lia.
Qed.

Lemma substr0_prefix (s : string) (n : nat) :
  (n <= String.length s)%nat ->
  s = (substr0 s n ++ substring n (String.length s - n) s)%string.
Proof.
  unfold substr0. revert n; induction s as [|c s IH]; intros [|n] L; simpl in *;
    try lia; auto.
  - f_equal. clear. induction s as [|c s IH]; simpl; auto. now f_equal.
  - f_equal. apply IH. lia.
Qed.

Lemma string_bytes_substr0 (s : string) (n : nat) :
  string_bytes (substr0 s n) = firstn n (string_bytes s).
Proof.
  unfold substr0, string_bytes.
  revert n; induction s as [|c s IH]; intros [|n]; simpl; auto.
  now rewrite IH.
Qed.

(* ------------------------------------------------------------------------- *)
(** ** The truncation helpers *)

Lemma truncateName_fits (s : string) :
  (String.length s <= kMaxAdvertisingNameLength)%nat -> truncateName s = s.
Proof.
  intros L. unfold truncateName.
  destruct (Nat.leb_spec (String.length s) kMaxAdvertisingNameLength); [ reflexivity | lia ].
Qed.

Lemma truncateName_cuts (s : string) :
  (kMaxAdvertisingNameLength < String.length s)%nat ->
  truncateName s = substr0 s kMaxAdvertisingNameLength.
Proof.
  intros L. unfold truncateName.
  destruct (Nat.leb_spec (String.length s) kMaxAdvertisingNameLength); [ lia | reflexivity ].
Qed.

Lemma truncateShortName_fits (s : string) :
  (String.length s <= kMaxAdvertisingShortNameLength)%nat -> truncateShortName s = s.
Proof.
  intros L. unfold truncateShortName.
  destruct (Nat.leb_spec (String.length s) kMaxAdvertisingShortNameLength); [ reflexivity | lia ].
Qed.

Lemma truncateShortName_cuts (s : string) :
  (kMaxAdvertisingShortNameLength < String.length s)%nat ->
  truncateShortName s = substr0 s kMaxAdvertisingShortNameLength.
Proof.
  intros L. unfold truncateShortName.
  destruct (Nat.leb_spec (String.length s) kMaxAdvertisingShortNameLength); [ lia | reflexivity ].
Qed.

Lemma truncateName_length (s : string) :
  (String.length (truncateName s) <= kMaxAdvertisingNameLength)%nat.
Proof.
  destruct (Nat.le_gt_cases (String.length s) kMaxAdvertisingNameLength) as [L | L].
  - now rewrite truncateName_fits.
  - rewrite truncateName_cuts, length_substr0; lia.
Qed.

Lemma truncateShortName_length (s : string) :
  (String.length (truncateShortName s) <= kMaxAdvertisingShortNameLength)%nat.
Proof.
  destruct (Nat.le_gt_cases (String.length s) kMaxAdvertisingShortNameLength) as [L | L].
  - now rewrite truncateShortName_fits.
  - rewrite truncateShortName_cuts, length_substr0; lia.
Qed.

(** C5: a string longer than the maximum is cut to exactly its prefix of
    maximum length, and a string at or under the maximum comes back
    unchanged; so for [truncateName] as for [truncateShortName]. *)
Theorem truncate_prefix_or_same (s : string) :
  ((kMaxAdvertisingNameLength < String.length s)%nat ->
     truncateName s = substr0 s kMaxAdvertisingNameLength
     /\ String.length (truncateName s) = kMaxAdvertisingNameLength
     /\ exists rest, s = (truncateName s ++ rest)%string)
  /\ ((String.length s <= kMaxAdvertisingNameLength)%nat -> truncateName s = s)
  /\ ((kMaxAdvertisingShortNameLength < String.length s)%nat ->
     truncateShortName s = substr0 s kMaxAdvertisingShortNameLength
     /\ String.length (truncateShortName s) = kMaxAdvertisingShortNameLength
     /\ exists rest, s = (truncateShortName s ++ rest)%string)
  /\ ((String.length s <= kMaxAdvertisingShortNameLength)%nat ->
     truncateShortName s = s).
Proof.
  split; [ | split; [ | split ] ]; intros L.
  - rewrite truncateName_cuts by exact L.
    split; [ reflexivity | split ].
    + apply length_substr0; lia.
    + eexists; apply substr0_prefix; lia.
  - now apply truncateName_fits.
  - rewrite truncateShortName_cuts by exact L.
    split; [ reflexivity | split ].
    + apply length_substr0; lia.
    + eexists; apply substr0_prefix; lia.
  - now apply truncateShortName_fits.
Qed.

(** C6: truncating twice is truncating once, for either helper. *)
Theorem truncate_idempotent (s : string) :
  truncateName (truncateName s) = truncateName s
  /\ truncateShortName (truncateShortName s) = truncateShortName s.
Proof.
  split.
  - apply truncateName_fits, truncateName_length.
  - apply truncateShortName_fits, truncateShortName_length.
Qed.

(* ------------------------------------------------------------------------- *)
(** ** What each setter does to the world *)

(** Unfolds a setter down to the transport's answer, leaving the request
    builders folded. *)
Ltac unfold_setter :=
  cbv [invoke setName setDiscoverable setState setPowered setBredr
       setSecureConnections setBondable setConnectable setLE setAdvertising
       addAdvertising bind ret undefined deref HciAdapter_sendCommand
       Logger_warn Logger_debug Logger_log uninitialized static_kShortName
       static_kUuid submitted local_array];
  cbn [adapter issued logged kShortName kUuid residue].

Ltac answer_cases :=
  match goal with
  | |- context [sendCommand ?r ?a] =>
      destruct (sendCommand r a) as [[|] ?]
  end;
  cbn [negb adapter issued logged kShortName kUuid residue];
  rewrite ?app_nil_r, <- ?app_assoc; try reflexivity.

Section Outcomes.
Context `{Target} `{HciAdapter} `{CommandCodes}.

Lemma setName_outcome (this : Mgmt) (name shortName : string) (w : World) :
  setName this name shortName w
  = Some (submitted w
            (SetNameRequest_packed
               (setName_request this name shortName
                  (local_array w 249) (local_array w 11)))
            [] "  + Failed to set name" (kShortName w) (kUuid w)).
Proof. unfold_setter. answer_cases. Qed.

Lemma setDiscoverable_outcome (this : Mgmt) (disc timeout : Z) (w : World) :
  setDiscoverable this disc timeout w
  = Some (submitted w
            (SetDiscoverableRequest_packed
               (setDiscoverable_request this disc timeout))
            [] "  + Failed to set discoverable" (kShortName w) (kUuid w)).
Proof. unfold_setter. answer_cases. Qed.

Lemma setState_outcome (commandCode controllerId newState : Z) (w : World) :
  setState commandCode controllerId newState w
  = Some (submitted w
            (SetStateRequest_packed
               (setState_request commandCode controllerId newState))
            []
            ("  + Failed to set " ++ kCommandCodeNames commandCode
             ++ " state to: " ++ decimal newState)%string
            (kShortName w) (kUuid w)).
Proof. unfold_setter. answer_cases. Qed.

(** With a non-null [uuid] the arguments are encoded, and the statics
    are initialised from them unless they already were. *)
Lemma addAdvertising_outcome_some (this : Mgmt) (shortName : string) (u : Z)
    (w : World) :
  addAdvertising this shortName (Some u) w
  = Some (submitted w
            (AddAdvertisingRequest_packed
               (addAdvertising_request this shortName u
                  (local_array w ADVERTISING_MAX_DATALEN)))
            [(Debug, ("addAdvertising()" ++ shortName ++ ": " ++ decimal u)%string)]
            "  + Failed to start advertising with UUID"
            (Some (match kShortName w with Some k => k | None => shortName end))
            (Some (match kUuid w with Some k => k | None => u end))).
Proof.
  unfold_setter.
  destruct (kShortName w) eqn:ES, (kUuid w) eqn:EU;
    cbn [adapter issued logged kShortName kUuid residue];
    rewrite ?ES, ?EU; answer_cases.
Qed.

(** With a null [uuid] and initialised statics, the statics are encoded. *)
Lemma addAdvertising_outcome_null (this : Mgmt) (shortName : string)
    (ku : Z) (w : World) :
  kUuid w = Some ku ->
  addAdvertising this shortName None w
  = let ks := match kShortName w with Some k => k | None => shortName end in
    Some (submitted w
            (AddAdvertisingRequest_packed
               (addAdvertising_request this ks ku
                  (local_array w ADVERTISING_MAX_DATALEN)))
            [(Debug, ("addAdvertising()" ++ ks ++ ": " ++ decimal ku)%string)]
            "  + Failed to start advertising with UUID"
            (Some ks) (Some ku)).
Proof.
  intros E. unfold_setter. rewrite E.
  destruct (kShortName w) eqn:ES;
    cbn [adapter issued logged kShortName kUuid residue];
    rewrite ?E, ?ES; answer_cases.
Qed.

(** With a null [uuid] and [kUuid] not yet initialised, its initialiser
    reads through the null pointer. *)
Lemma addAdvertising_null_undefined (this : Mgmt) (shortName : string)
    (w : World) :
  kUuid w = None -> addAdvertising this shortName None w = None.
Proof.
  intros E. unfold_setter.
  destruct (kShortName w);
    cbn [adapter issued logged kShortName kUuid residue]; now rewrite E.
Qed.
End Outcomes.

(* ------------------------------------------------------------------------- *)
(** ** What each request holds *)

Lemma length_c_str (bs : list byte) : (length (c_str bs) <= length bs)%nat.
Proof.
  induction bs as [|b r IH]; simpl; auto.
  destruct (b =? 0); simpl; lia.
Qed.

Lemma length_repr (o : ByteOrder) (n : nat) (z : Z) : length (repr o n z) = n.
Proof.
  assert (L : forall k x, length (le_bytes k x) = k).
  { induction k as [|k IH]; intros x; simpl; auto. }
  destruct o; simpl; [ | rewrite length_rev ]; apply L.
Qed.

Lemma repr_1 (o : ByteOrder) (z : Z) : repr o 1 z = [z mod 256].
Proof. now destruct o. Qed.

Lemma value_repr_2 (o : ByteOrder) (z : Z) :
  0 <= z < 65536 -> value o (repr o 2 z) = z.
Proof.
  intros R. destruct o; cbn [value repr le_bytes rev app le_value].
  all: rewrite (Z.mod_small (z / 256)) by (split; [ apply Z.div_pos | apply Z.div_lt_upper_bound ]; lia).
  all: pose proof (Z.div_mod z 256); lia.
Qed.

(** A name field: zeroed, then written by [snprintf]. *)
Lemma name_field (m : nat) (buf : list byte) (s : string) :
  length buf = S m ->
  (String.length s <= m)%nat ->
  let text := c_str (string_bytes s) in
  snprintf_s (memset buf 0 0 (S m)) (S m) (string_bytes s)
  = text ++ repeat 0 (S m - length text).
Proof.
  intros L F text. rewrite memset_whole by exact L.
  rewrite snprintf_s_zeroed. cbv zeta. fold text.
  assert (T : (length text <= m)%nat).
  { unfold text. pose proof (length_c_str (string_bytes s)) as B.
    rewrite length_string_bytes in B. lia. }
  now rewrite firstn_all2 by exact T.
Qed.

Section Contents.
Context `{Target} `{CommandCodes}.

Lemma setName_request_fields (this : Mgmt) (name shortName : string)
    (name0 shortName0 : list byte) :
  length name0 = 249%nat -> length shortName0 = 11%nat ->
  let r := setName_request this name shortName name0 shortName0 in
  let text := c_str (string_bytes (truncateName name)) in
  let short := c_str (string_bytes (truncateShortName shortName)) in
  sn_name r = text ++ repeat 0 (249 - length text)
  /\ sn_shortName r = short ++ repeat 0 (11 - length short)
  /\ dataSize (sn_hdr r) = 260.
Proof.
  intros L1 L2. cbv zeta. unfold setName_request.
  cbn [sn_name sn_shortName sn_hdr dataSize].
  split; [ | split ].
  - apply (name_field 248); [ exact L1 | apply truncateName_length ].
  - apply (name_field 10); [ exact L2 | apply truncateShortName_length ].
  - reflexivity.
Qed.

(** The data array [addAdvertising] leaves behind: both elements, and
    zeroes in the name capacity not used. *)
Lemma addAdvertising_request_data (this : Mgmt) (shortName : string)
    (uuid : Z) (data0 : list byte) :
  length data0 = ADVERTISING_MAX_DATALEN ->
  let n := Nat.min ADVERTISING_SHORTNAME_MAX_LEN (String.length shortName) in
  aa_data (addAdvertising_request this shortName uuid data0)
  = advertising_data_block uuid (string_bytes shortName) n
      ++ repeat 0 (ADVERTISING_SHORTNAME_MAX_LEN - n).
Proof.
  intros L n.
  do 15 (destruct data0 as [|? data0]; try discriminate L). clear L.
  unfold addAdvertising_request, advertising_data_block.
  cbn [aa_data]. fold n.
  assert (R : exists lo hi, repr native 2 uuid = [lo; hi]).
  { destruct native; cbn; eauto. }
  destruct R as (lo & hi & R). rewrite R.
  assert (N : (n <= 8)%nat) by (unfold n, ADVERTISING_SHORTNAME_MAX_LEN; lia).
  assert (S : firstn n (string_bytes shortName ++ [0])
              = firstn n (string_bytes shortName)).
  { rewrite firstn_app.
    replace (n - length (string_bytes shortName))%nat with 0%nat.
    - apply app_nil_r.
    - rewrite length_string_bytes. unfold n. lia. }
  assert (LS : length (firstn n (string_bytes shortName)) = n).
  { rewrite length_firstn, length_string_bytes. unfold n. lia. }
  unfold memcpy at 1. rewrite S. clearbody n.
  unfold store, memset, memcpy, blit, ADVERTISING_UUID_LEN,
    ADVERTISING_SHORTNAME_MAX_LEN.
  cbn - [Z.of_nat to_uint8 Z.add string_bytes Nat.sub].
  rewrite LS.
  change [0; 0; 0; 0; 0; 0; 0; 0] with (repeat 0 8).
  rewrite skipn_repeat_sub.
  replace (to_uint8 (1 + Z.of_nat n)) with (1 + Z.of_nat n).
  - reflexivity.
  - unfold to_uint8. rewrite Z.mod_small; lia.
Qed.

Lemma addAdvertising_request_lengths (this : Mgmt) (shortName : string)
    (uuid : Z) (data0 : list byte) :
  let n := Nat.min ADVERTISING_SHORTNAME_MAX_LEN (String.length shortName) in
  let r := addAdvertising_request this shortName uuid data0 in
  dataSize (aa_hdr r) = 17 + Z.of_nat n
  /\ aa_advDataLen r = 6 + Z.of_nat n.
Proof.
  intros n r. unfold r, addAdvertising_request. cbn [aa_hdr dataSize aa_advDataLen].
  fold n.
  assert (N : (n <= 8)%nat) by (unfold n, ADVERTISING_SHORTNAME_MAX_LEN; lia).
  unfold to_uint16, to_uint8, sizeof_AddAdvertisingRequest, sizeof_HciHeader,
    ADVERTISING_MAX_DATALEN, ADVERTISING_SHORTNAME_MAX_LEN, ADVERTISING_UUID_LEN.
  split; rewrite Z.mod_small; lia.
Qed.
End Contents.

(* ------------------------------------------------------------------------- *)
(** ** Programs: the statics of [addAdvertising] along a run *)

Section Runs.
Context `{Target} `{HciAdapter} `{CommandCodes}.

Lemma submitted_spec (w : World) (r : Request)
    (dbg : list (LogLevel * string)) (msg : string)
    (kS : option string) (kU : option Z) :
  exists b w',
    submitted w r dbg msg kS kU = (b, w')
    /\ sendCommand r (adapter w) = (b, adapter w')
    /\ issued w' = issued w ++ [r]
    /\ logged w' = (logged w ++ dbg) ++ (if b then [] else [(Warn, msg)])
    /\ kShortName w' = kS /\ kUuid w' = kU
    /\ residue w' = residue w.
Proof.
  unfold submitted. destruct (sendCommand r (adapter w)) as [ok a].
  eexists _, _. repeat split.
Qed.

Lemma submitted_statics (w : World) (r : Request)
    (dbg : list (LogLevel * string)) (msg : string)
    (kS : option string) (kU : option Z) :
  exists b w',
    submitted w r dbg msg kS kU = (b, w')
    /\ kShortName w' = kS /\ kUuid w' = kU.
Proof.
  destruct (submitted_spec w r dbg msg kS kU) as (b & w' & E & _ & _ & _ & A & B & _).
  eauto.
Qed.

(** A setter other than [addAdvertising] always returns and leaves the
    statics alone; [addAdvertising] initialises them on its first call,
    which has no defined behaviour on a null [uuid]. *)
Lemma invoke_statics (this : Mgmt) (c : Call) (w : World) :
  match c with
  | CallAddAdvertising shortName None =>
      match kUuid w with
      | None => invoke this c w = None
      | Some ku =>
          exists b w', invoke this c w = Some (b, w')
            /\ kShortName w'
               = Some (match kShortName w with Some k => k | None => shortName end)
            /\ kUuid w' = Some ku
      end
  | CallAddAdvertising shortName (Some u) =>
      exists b w', invoke this c w = Some (b, w')
        /\ kShortName w'
           = Some (match kShortName w with Some k => k | None => shortName end)
        /\ kUuid w' = Some (match kUuid w with Some k => k | None => u end)
  | _ =>
      exists b w', invoke this c w = Some (b, w')
        /\ kShortName w' = kShortName w /\ kUuid w' = kUuid w
  end.
Proof.
  destruct c as [n s|d t|cc ci ns|b|b|ns|b|b|b|ns|s [u|]]; cbn [invoke].
  1: rewrite setName_outcome.
  2: rewrite setDiscoverable_outcome.
  3: rewrite setState_outcome.
  4-10: unfold setPowered, setBredr, setSecureConnections, setBondable,
          setConnectable, setLE, setAdvertising; rewrite setState_outcome.
  11: rewrite addAdvertising_outcome_some.
  12: destruct (kUuid w) as [ku|] eqn:E;
        [ rewrite (addAdvertising_outcome_null _ _ ku) by exact E; cbv zeta
        | now apply addAdvertising_null_undefined ].
  all: match goal with
       | |- context [submitted ?w ?r ?d ?m ?s ?u] =>
           destruct (submitted_statics w r d m s u) as (b' & w' & -> & A & B)
       end; eauto.
Qed.

Lemma run_cons (this : Mgmt) (c : Call) (rest : list (Mgmt * Call))
    (w : World) :
  run ((this, c) :: rest) w
  = match invoke this c w with
    | Some (b, w1) =>
        match run rest w1 with
        | Some (bs, w2) => Some (b :: bs, w2)
        | None => None
        end
    | None => None
    end.
Proof.
  cbn [run]. unfold bind, ret.
  destruct (invoke this c w) as [[b w1]|]; [ | reflexivity ].
  destruct (run rest w1) as [[bs w2]|]; reflexivity.
Qed.

(** Once initialised, the statics never change, and every program runs
    to its end. *)
Lemma run_initialised (calls : list (Mgmt * Call)) :
  forall (w : World) (ks : string) (ku : Z),
    kShortName w = Some ks -> kUuid w = Some ku ->
    exists bs w', run calls w = Some (bs, w')
      /\ kShortName w' = Some ks /\ kUuid w' = Some ku.
Proof.
  induction calls as [|[this c] rest IH]; intros w ks ku ES EU.
  - cbn. unfold ret. eauto.
  - rewrite run_cons.
    pose proof (invoke_statics this c w) as I.
    assert (exists b w1, invoke this c w = Some (b, w1)
              /\ kShortName w1 = Some ks /\ kUuid w1 = Some ku)
      as (b0 & w1 & E & ES1 & EU1).
    { destruct c as [n s|d t|cc ci ns|b|b|ns|b|b|b|ns|s [u|]];
        rewrite ?ES, ?EU in I; destruct I as (b' & w1 & E & A & B);
        exists b', w1; repeat split; congruence. }
    rewrite E.
    destruct (IH w1 ks ku ES1 EU1) as (bs & w' & -> & A & B). eauto.
Qed.

(** From process start, the first [addAdvertising] call decides: a null
    [uuid] there has no defined behaviour, a non-null one fixes the
    statics for the rest of the run. *)
Lemma run_uninitialised (calls : list (Mgmt * Call)) :
  forall (w : World),
    kShortName w = None -> kUuid w = None ->
    match first_advertising calls with
    | None =>
        exists bs w', run calls w = Some (bs, w')
          /\ kShortName w' = None /\ kUuid w' = None
    | Some (s0, Some u0) =>
        exists bs w', run calls w = Some (bs, w')
          /\ kShortName w' = Some s0 /\ kUuid w' = Some u0
    | Some (_, None) => run calls w = None
    end.
Proof.
  induction calls as [|[this c] rest IH]; intros w ES EU.
  - cbn. unfold ret. eauto.
  - rewrite run_cons.
    pose proof (invoke_statics this c w) as I.
    destruct c as [n s|d t|cc ci ns|b|b|ns|b|b|b|ns|s [u|]];
      cbn [first_advertising].
    1-10: destruct I as (b' & w1 & -> & A & B);
          rewrite ES in A; rewrite EU in B;
          specialize (IH w1 A B);
          destruct (first_advertising rest) as [[s0 [u0|]]|];
          [ destruct IH as (bs & w' & -> & C & D); eauto
          | now rewrite IH
          | destruct IH as (bs & w' & -> & C & D); eauto ].
    + rewrite ES, EU in I. destruct I as (b' & w1 & -> & A & B).
      destruct (run_initialised rest w1 s u A B) as (bs & w' & -> & C & D).
      eauto.
    + rewrite EU in I. now rewrite I.
Qed.
End Runs.

(* ------------------------------------------------------------------------- *)
(** ** Payloads *)

Lemma firstn_exact {A} (k : nat) (l1 l2 : list A) :
  length l1 = k -> firstn k (l1 ++ l2) = l1.
Proof.
  intros <-. rewrite firstn_app, Nat.sub_diag, firstn_all. cbn.
  apply app_nil_r.
Qed.

Lemma payload_whole (r : Request) :
  dataSize (hdr r) = Z.of_nat (length (body r)) -> payload r = body r.
Proof.
  intros E. unfold payload. rewrite E, Nat2Z.id. apply firstn_all.
Qed.

Lemma length_padded (text : list byte) (m : nat) :
  (length text <= m)%nat -> length (text ++ repeat 0 (m - length text)) = m.
Proof. intros L. rewrite length_app, repeat_length. lia. Qed.

Lemma in_firstn {A} (x : A) (n : nat) (l : list A) :
  In x (firstn n l) -> In x l.
Proof.
  revert l; induction n as [|n IH]; intros l; simpl.
  - intros [].
  - destruct l as [|y l]; simpl; [ intros [] | ].
    intros [E | I]; [ now left | right; now apply IH ].
Qed.

Lemma string_bytes_truncate_no_nul (s : string) :
  ~ In 0 (string_bytes s) ->
  ~ In 0 (string_bytes (truncateName s))
  /\ ~ In 0 (string_bytes (truncateShortName s)).
Proof.
  intros N. unfold truncateName, truncateShortName.
  split.
  - destruct (String.length s <=? kMaxAdvertisingNameLength)%nat; [ exact N | ].
    rewrite string_bytes_substr0. intros I. apply N. eapply in_firstn, I.
  - destruct (String.length s <=? kMaxAdvertisingShortNameLength)%nat; [ exact N | ].
    rewrite string_bytes_substr0. intros I. apply N. eapply in_firstn, I.
Qed.

Section Payloads.
Context `{Target} `{CommandCodes}.

Lemma setName_body (this : Mgmt) (name shortName : string)
    (name0 shortName0 : list byte) :
  length name0 = 249%nat -> length shortName0 = 11%nat ->
  let r := SetNameRequest_packed
             (setName_request this name shortName name0 shortName0) in
  let text := c_str (string_bytes (truncateName name)) in
  let short := c_str (string_bytes (truncateShortName shortName)) in
  body r = (text ++ repeat 0 (249 - length text))
             ++ (short ++ repeat 0 (11 - length short))
  /\ (length text <= 248)%nat /\ (length short <= 10)%nat
  /\ dataSize (hdr r) = 260
  /\ length (body r) = 260%nat.
Proof.
  intros L1 L2 r text short.
  destruct (setName_request_fields this name shortName name0 shortName0 L1 L2)
    as (A & B & C).
  assert (T : (length text <= 248)%nat).
  { unfold text. pose proof (length_c_str (string_bytes (truncateName name))).
    pose proof (truncateName_length name).
    rewrite length_string_bytes in *. unfold kMaxAdvertisingNameLength in *. lia. }
  assert (S : (length short <= 10)%nat).
  { unfold short.
    pose proof (length_c_str (string_bytes (truncateShortName shortName))).
    pose proof (truncateShortName_length shortName).
    rewrite length_string_bytes in *.
    unfold kMaxAdvertisingShortNameLength in *. lia. }
  unfold r, SetNameRequest_packed. cbn [body hdr]. rewrite A, B, C.
  fold text. fold short.
  repeat split; try assumption.
  rewrite length_app, !length_padded by lia. reflexivity.
Qed.

Lemma addAdvertising_body (this : Mgmt) (shortName : string) (uuid : Z)
    (data0 : list byte) :
  length data0 = ADVERTISING_MAX_DATALEN ->
  let n := Nat.min ADVERTISING_SHORTNAME_MAX_LEN (String.length shortName) in
  let r := AddAdvertisingRequest_packed
             (addAdvertising_request this shortName uuid data0) in
  let block := advertising_data_block uuid (string_bytes shortName) n in
  let fields := advertising_fixed_fields (6 + Z.of_nat n) in
  body r = (fields ++ block) ++ repeat 0 (ADVERTISING_SHORTNAME_MAX_LEN - n)
  /\ payload r = fields ++ block
  /\ dataSize (hdr r) = 17 + Z.of_nat n
  /\ length fields = 11%nat
  /\ length block = (6 + n)%nat.
Proof.
  intros L n r block fields.
  assert (N : (n <= 8)%nat) by (unfold n, ADVERTISING_SHORTNAME_MAX_LEN; lia).
  destruct (addAdvertising_request_lengths this shortName uuid data0) as (DS & AL).
  fold n in DS, AL.
  assert (LF : length fields = 11%nat).
  { unfold fields, advertising_fixed_fields.
    rewrite !length_app, !length_repr. reflexivity. }
  assert (LB : length block = (6 + n)%nat).
  { unfold block, advertising_data_block.
    rewrite !length_app, length_repr, length_firstn, length_string_bytes.
    cbn [length]. unfold n. lia. }
  assert (B : body r = (fields ++ block)
                       ++ repeat 0 (ADVERTISING_SHORTNAME_MAX_LEN - n)).
  { unfold r, AddAdvertisingRequest_packed. cbn [body].
    rewrite addAdvertising_request_data by exact L. fold n. fold block.
    rewrite AL, !repr_1.
    cbn [addAdvertising_request aa_instance aa_flags aa_duration aa_timeout
         aa_scanRspLen].
    unfold fields, advertising_fixed_fields.
    rewrite (Z.mod_small (6 + Z.of_nat n)) by lia.
    change (1 mod 256) with 1. change (0 mod 256) with 0.
    now rewrite <- !app_assoc. }
  repeat split; try assumption.
  unfold payload. rewrite B.
  replace (dataSize (hdr r)) with (17 + Z.of_nat n) by (symmetry; exact DS).
  apply firstn_exact. rewrite length_app, LF, LB. lia.
Qed.
End Payloads.

(* ------------------------------------------------------------------------- *)
(** ** The encoder's contract *)

Section Contract.
Context `{Target} `{HciAdapter} `{CommandCodes}.

(** C1 (as amended): when the first [addAdvertising] call of the process
    had a non-null [uuid], the program runs to its end and a following
    call with a null [uuid] builds its record from the short name and
    UUID of that first call; the statics are initialised once and never
    assigned again. *)
Theorem null_call_reuses_first_call (calls : list (Mgmt * Call))
    (a : Transport) (junk : nat -> byte) (this : Mgmt)
    (shortName s0 : string) (u0 : Z) :
  first_advertising calls = Some (s0, Some u0) ->
  exists bs w b w',
    run calls (startup a junk) = Some (bs, w)
    /\ addAdvertising this shortName None w = Some (b, w')
    /\ issued w'
       = issued w
         ++ [AddAdvertisingRequest_packed
               (addAdvertising_request this s0 u0
                  (local_array w ADVERTISING_MAX_DATALEN))].
Proof.
  intros F.
  pose proof (run_uninitialised calls (startup a junk) eq_refl eq_refl) as R.
  rewrite F in R. destruct R as (bs & w & R & ES & EU).
  exists bs, w.
  rewrite (addAdvertising_outcome_null this shortName u0 w EU), ES. cbv zeta.
  match goal with
  | |- context [submitted ?w ?r ?d ?m ?s ?u] =>
      destruct (submitted_spec w r d m s u) as (b & w' & -> & _ & I & _)
  end.
  exists b, w'. auto.
Qed.

(** C2: with a non-null [uuid], the payload of [addAdvertising] is the
    instance byte 1, the flags 3 on four bytes, duration 0 and timeout 0
    on two bytes each, the advertising-data length, a scan-response
    length of 0, and then the block [3][0x03][UUID][1+n][0x08][n name
    bytes], with n the smaller of 8 and the short name's length; the
    advertising-data length is 14 - (8 - n), the length of that block. *)
Theorem addAdvertising_payload_layout (this : Mgmt) (shortName : string)
    (u : Z) (w : World) :
  let n := Nat.min 8 (String.length shortName) in
  let advDataLen := 14 - (8 - Z.of_nat n) in
  let block :=
    [3; 3] ++ repr native 2 u ++ [1 + Z.of_nat n; 8]
           ++ firstn n (string_bytes shortName) in
  exists b w' r,
    addAdvertising this shortName (Some u) w = Some (b, w')
    /\ issued w' = issued w ++ [r]
    /\ payload r
       = [1] ++ repr native 4 3 ++ repr native 2 0 ++ repr native 2 0
             ++ [advDataLen] ++ [0] ++ block
    /\ Z.of_nat (length block) = advDataLen
    /\ length block = (2 + 1 + 1 + 1 + 1 + n)%nat.
Proof.
  intros n advDataLen block.
  rewrite addAdvertising_outcome_some.
  match goal with
  | |- context [submitted ?w ?r ?d ?m ?s ?u] =>
      destruct (submitted_spec w r d m s u) as (b & w' & -> & _ & I & _)
  end.
  eexists b, w', _. split; [ reflexivity | split; [ exact I | ] ].
  destruct (addAdvertising_body this shortName u
              (local_array w ADVERTISING_MAX_DATALEN)
              (length_uninit _ _)) as (_ & P & _ & _ & LB).
  cbv zeta in P, LB.
  change ADVERTISING_SHORTNAME_MAX_LEN with 8%nat in P, LB. fold n in P, LB.
  unfold advertising_data_block in P, LB. fold block in P, LB.
  unfold advertising_fixed_fields in P.
  replace (6 + Z.of_nat n) with advDataLen in P by (unfold advDataLen; lia).
  split; [ | split ].
  - rewrite P. now rewrite <- !app_assoc.
  - unfold byte in LB |- *. rewrite LB. unfold advDataLen. lia.
  - unfold byte in LB |- *. rewrite LB. lia.
Qed.

(** C3: the payload length a setter declares in the header of the record
    it builds is the number of payload bytes that follow the header; for
    [addAdvertising] that is the size of the structure less the header
    and less the short-name capacity left unused, which is all zero. *)
Theorem declared_length_is_payload_length (this : Mgmt) (c : Call)
    (w : World) :
  null_safe c w ->
  exists b w' r,
    invoke this c w = Some (b, w')
    /\ issued w' = issued w ++ [r]
    /\ dataSize (hdr r) = Z.of_nat (length (payload r))
    /\ body r = payload r ++ repeat 0 (unused_capacity w c)
    /\ dataSize (hdr r)
       = Z.of_nat (length (body r)) - Z.of_nat (unused_capacity w c).
Proof.
  assert (whole : forall r : Request,
             dataSize (hdr r) = Z.of_nat (length (body r)) ->
             dataSize (hdr r) = Z.of_nat (length (payload r))
             /\ body r = payload r ++ repeat 0 0
             /\ dataSize (hdr r) = Z.of_nat (length (body r)) - Z.of_nat 0).
  { intros r E. rewrite (payload_whole r E). cbn [repeat].
    rewrite app_nil_r. repeat split; [ exact E | lia ]. }
  assert (adv : forall (s : string) (u : Z),
             let r := AddAdvertisingRequest_packed
                        (addAdvertising_request this s u
                           (local_array w ADVERTISING_MAX_DATALEN)) in
             let k := (ADVERTISING_SHORTNAME_MAX_LEN
                       - Nat.min ADVERTISING_SHORTNAME_MAX_LEN (String.length s))%nat in
             dataSize (hdr r) = Z.of_nat (length (payload r))
             /\ body r = payload r ++ repeat 0 k
             /\ dataSize (hdr r) = Z.of_nat (length (body r)) - Z.of_nat k).
  { intros s u r k.
    destruct (addAdvertising_body this s u
                (local_array w ADVERTISING_MAX_DATALEN) (length_uninit _ _))
      as (B & P & DS & LF & LB).
    cbv zeta in B, P, DS, LF, LB. fold r in B, P, DS. fold k in B.
    rewrite P. split; [ | split ].
    - rewrite DS, length_app, LF, LB. lia.
    - exact B.
    - rewrite DS, B, !length_app, LF, LB, repeat_length.
      unfold k, ADVERTISING_SHORTNAME_MAX_LEN. lia. }
  intros S.
  destruct c as [n s|d t|cc ci ns|p|p|ns|p|p|p|ns|s [u|]]; cbn [invoke].
  1: rewrite setName_outcome.
  2: rewrite setDiscoverable_outcome.
  3: rewrite setState_outcome.
  4-10: unfold setPowered, setBredr, setSecureConnections, setBondable,
          setConnectable, setLE, setAdvertising; rewrite setState_outcome.
  11: rewrite addAdvertising_outcome_some.
  12: cbn in S; destruct (kUuid w) as [ku|] eqn:EU; [ | contradiction ];
      rewrite (addAdvertising_outcome_null _ _ ku) by exact EU;
      cbv zeta.
  all: match goal with
       | |- context [submitted ?w ?r ?d ?m ?s ?u] =>
           destruct (submitted_spec w r d m s u) as (b0 & w0 & -> & _ & I & _);
           exists b0, w0, r; split; [ reflexivity | split; [ exact I | ] ]
       end.
  1: { apply whole.
       destruct (setName_body this n s (local_array w 249) (local_array w 11)
                   (length_uninit _ _) (length_uninit _ _))
         as (_ & _ & _ & -> & ->). reflexivity. }
  1: { apply whole. unfold SetDiscoverableRequest_packed. cbn [body hdr].
       rewrite length_app, !length_repr. reflexivity. }
  1-8: apply whole; unfold SetStateRequest_packed; cbn [body hdr];
       rewrite length_repr; reflexivity.
  - cbn [unused_capacity encoded_short_name]. apply adv.
  - cbn [unused_capacity]. unfold encoded_short_name. apply adv.
Qed.

(** C4: the payload of [setName] is a name field of 249 bytes followed by
    a short-name field of 11 bytes; each holds the truncated string (as
    far as its first NUL, should it hold one) and is NUL from there to
    its end, whatever the fields held before; the declared payload
    length is 260. *)
Theorem setName_payload_layout (this : Mgmt) (name shortName : string)
    (w : World) :
  let text := c_str (string_bytes (truncateName name)) in
  let short := c_str (string_bytes (truncateShortName shortName)) in
  let nameField := text ++ repeat 0 (249 - length text) in
  let shortNameField := short ++ repeat 0 (11 - length short) in
  exists b w' r,
    setName this name shortName w = Some (b, w')
    /\ issued w' = issued w ++ [r]
    /\ payload r = nameField ++ shortNameField
    /\ body r = payload r
    /\ length nameField = 249%nat /\ length shortNameField = 11%nat
    /\ (length text <= 248)%nat /\ (length short <= 10)%nat
    /\ dataSize (hdr r) = 260
    /\ (~ In 0 (string_bytes name) ->
        text = string_bytes (truncateName name))
    /\ (~ In 0 (string_bytes shortName) ->
        short = string_bytes (truncateShortName shortName)).
Proof.
  intros text short nameField shortNameField.
  rewrite setName_outcome.
  match goal with
  | |- context [submitted ?w ?r ?d ?m ?s ?u] =>
      destruct (submitted_spec w r d m s u) as (b & w' & -> & _ & I & _)
  end.
  eexists b, w', _. split; [ reflexivity | split; [ exact I | ] ].
  destruct (setName_body this name shortName (local_array w 249)
              (local_array w 11) (length_uninit _ _) (length_uninit _ _))
    as (B & T & S & DS & LB).
  cbv zeta in B, T, S, DS, LB.
  fold text in B, T. fold short in B, S.
  fold nameField in B. fold shortNameField in B.
  rewrite payload_whole by (rewrite DS, LB; reflexivity).
  repeat split; try assumption.
  - unfold nameField. apply length_padded. lia.
  - unfold shortNameField. apply length_padded. lia.
  - intros N. apply c_str_id. now apply string_bytes_truncate_no_nul.
  - intros N. apply c_str_id. now apply string_bytes_truncate_no_nul.
Qed.


(** C8: [setDiscoverable] submits a payload of exactly the mode byte
    followed by the two bytes of the timeout, both as given; nothing is
    checked, so any mode goes out with any timeout. *)
Theorem setDiscoverable_payload_verbatim (this : Mgmt) (disc timeout : Z)
    (w : World) :
  0 <= disc < 256 ->
  0 <= timeout < 65536 ->
  exists b w' r,
    setDiscoverable this disc timeout w = Some (b, w')
    /\ issued w' = issued w ++ [r]
    /\ payload r = [disc] ++ repr native 2 timeout
    /\ body r = payload r
    /\ dataSize (hdr r) = 3
    /\ value native (repr native 2 timeout) = timeout.
Proof.
  intros RD RT.
  rewrite setDiscoverable_outcome.
  match goal with
  | |- context [submitted ?w ?r ?d ?m ?s ?u] =>
      destruct (submitted_spec w r d m s u) as (b & w' & -> & _ & I & _)
  end.
  eexists b, w', _. split; [ reflexivity | split; [ exact I | ] ].
  rewrite payload_whole.
  - unfold SetDiscoverableRequest_packed. cbn [body hdr].
    cbn [setDiscoverable_request sd_disc sd_timeout sd_hdr dataSize].
    rewrite repr_1, Z.mod_small by exact RD.
    repeat split. now apply value_repr_2.
  - unfold SetDiscoverableRequest_packed. cbn [body hdr].
    rewrite length_app, !length_repr. reflexivity.
Qed.

(** C9: a program whose first [addAdvertising] call has a non-null
    [uuid] runs to its end, so no initialiser of the statics ever reads
    through a null pointer; a program whose first [addAdvertising] call
    has a null [uuid] has no defined behaviour. *)
Theorem first_call_decides_null_dereference (calls : list (Mgmt * Call))
    (a : Transport) (junk : nat -> byte) :
  ((forall s, first_advertising calls <> Some (s, None)) ->
   exists bs w, run calls (startup a junk) = Some (bs, w))
  /\ (forall s, first_advertising calls = Some (s, None) ->
      run calls (startup a junk) = None).
Proof.
  pose proof (run_uninitialised calls (startup a junk) eq_refl eq_refl) as R.
  split.
  - intros N. destruct (first_advertising calls) as [[s0 [u0|]]|].
    + destruct R as (bs & w & R & _). eauto.
    + now elim (N s0).
    + destruct R as (bs & w & R & _). eauto.
  - intros s F. now rewrite F in R.
Qed.

(** C10: a short name of 9 or 10 characters passes [truncateShortName]
    unchanged, yet [addAdvertising] puts only its first 8 bytes in the
    data block and gives the name element the length byte 9. *)
Theorem addAdvertising_caps_short_name_at_8 (this : Mgmt)
    (shortName : string) (u : Z) (w : World) :
  String.length shortName = 9%nat \/ String.length shortName = 10%nat ->
  truncateShortName shortName = shortName
  /\ exists b w' r,
       addAdvertising this shortName (Some u) w = Some (b, w')
       /\ issued w' = issued w ++ [r]
       /\ payload r
          = advertising_fixed_fields 14
              ++ [3; 3] ++ repr native 2 u ++ [9; 8]
              ++ string_bytes (substr0 shortName 8)
       /\ length (string_bytes (substr0 shortName 8)) = 8%nat.
Proof.
  intros L. split.
  - apply truncateShortName_fits. unfold kMaxAdvertisingShortNameLength. lia.
  - rewrite addAdvertising_outcome_some.
    match goal with
    | |- context [submitted ?w ?r ?d ?m ?s ?u] =>
        destruct (submitted_spec w r d m s u) as (b & w' & -> & _ & I & _)
    end.
    eexists b, w', _. split; [ reflexivity | split; [ exact I | ] ].
    destruct (addAdvertising_body this shortName u
                (local_array w ADVERTISING_MAX_DATALEN)
                (length_uninit _ _)) as (_ & P & _).
    cbv zeta in P.
    replace (Nat.min ADVERTISING_SHORTNAME_MAX_LEN (String.length shortName))
      with 8%nat in P by (unfold ADVERTISING_SHORTNAME_MAX_LEN; lia).
    split.
    + rewrite P. unfold advertising_data_block.
      rewrite string_bytes_substr0. reflexivity.
    + rewrite length_string_bytes, length_substr0; lia.
Qed.
End Contract.

(* ------------------------------------------------------------------------- *)
(** ** Further properties: truncation *)

Lemma length_substring0 (s : string) (n : nat) :
  String.length (substring 0 n s) = Nat.min n (String.length s).
Proof.
  revert n; induction s as [|c s IH]; intros [|n]; simpl; auto.
Qed.

Lemma substr0_substr0 (s : string) (m n : nat) :
  (n <= m)%nat -> substr0 (substr0 s m) n = substr0 s n.
Proof.
  unfold substr0. revert m n; induction s as [|c s IH]; intros [|m] [|n] L;
    simpl; auto; try lia.
  f_equal. apply IH. lia.
Qed.

Lemma c_str_firstn (k : nat) (bs : list byte) :
  c_str (firstn k bs) = firstn k (c_str bs).
Proof.
  revert bs; induction k as [|k IH]; intros [|b r]; simpl; auto.
  destruct (b =? 0); simpl; [ reflexivity | now rewrite IH ].
Qed.

Lemma string_bytes_truncateName (s : string) :
  string_bytes (truncateName s) = firstn 248 (string_bytes s).
Proof.
  destruct (Nat.le_gt_cases (String.length s) kMaxAdvertisingNameLength) as [L | L].
  - rewrite truncateName_fits by exact L.
    symmetry. apply firstn_all2. rewrite length_string_bytes. exact L.
  - rewrite truncateName_cuts by exact L. apply string_bytes_substr0.
Qed.

Lemma string_bytes_truncateShortName (s : string) :
  string_bytes (truncateShortName s) = firstn 10 (string_bytes s).
Proof.
  destruct (Nat.le_gt_cases (String.length s) kMaxAdvertisingShortNameLength)
    as [L | L].
  - rewrite truncateShortName_fits by exact L.
    symmetry. apply firstn_all2. rewrite length_string_bytes. exact L.
  - rewrite truncateShortName_cuts by exact L. apply string_bytes_substr0.
Qed.

(** X3: either helper returns a string as long as its input or as long as
    its maximum, whichever is less; cutting to the short-name maximum
    after or before cutting to the name maximum is cutting to the
    short-name maximum. *)
Theorem truncate_lengths_and_composition (s : string) :
  String.length (truncateName s)
  = Nat.min (String.length s) kMaxAdvertisingNameLength
  /\ String.length (truncateShortName s)
     = Nat.min (String.length s) kMaxAdvertisingShortNameLength
  /\ truncateShortName (truncateName s) = truncateShortName s
  /\ truncateName (truncateShortName s) = truncateShortName s.
Proof.
  assert (LN : String.length (truncateName s)
               = Nat.min (String.length s) kMaxAdvertisingNameLength).
  { destruct (Nat.le_gt_cases (String.length s) kMaxAdvertisingNameLength) as [L | L].
    - rewrite truncateName_fits by exact L. lia.
    - rewrite truncateName_cuts by exact L. unfold substr0.
      rewrite length_substring0. lia. }
  assert (LS : String.length (truncateShortName s)
               = Nat.min (String.length s) kMaxAdvertisingShortNameLength).
  { destruct (Nat.le_gt_cases (String.length s) kMaxAdvertisingShortNameLength)
      as [L | L].
    - rewrite truncateShortName_fits by exact L. lia.
    - rewrite truncateShortName_cuts by exact L. unfold substr0.
      rewrite length_substring0. lia. }
  split; [ exact LN | split; [ exact LS | split ] ].
  - destruct (Nat.le_gt_cases (String.length s) kMaxAdvertisingNameLength) as [L | L].
    + now rewrite truncateName_fits by exact L.
    + rewrite (truncateName_cuts s L).
      assert (L10 : (kMaxAdvertisingShortNameLength < String.length s)%nat)
        by (unfold kMaxAdvertisingShortNameLength, kMaxAdvertisingNameLength in *; lia).
      rewrite (truncateShortName_cuts s L10).
      rewrite truncateShortName_cuts.
      * apply substr0_substr0.
        unfold kMaxAdvertisingShortNameLength, kMaxAdvertisingNameLength; lia.
      * rewrite length_substr0 by lia.
        unfold kMaxAdvertisingShortNameLength, kMaxAdvertisingNameLength; lia.
  - apply truncateName_fits. rewrite LS.
    unfold kMaxAdvertisingShortNameLength, kMaxAdvertisingNameLength. lia.
Qed.

(* ------------------------------------------------------------------------- *)
(** ** Further properties: the record of a call *)

Lemma filter_none {A} (f : A -> bool) (l : list A) :
  existsb f l = false -> filter f l = [].
Proof.
  induction l as [|x l IH]; simpl; auto.
  destruct (f x); simpl; [ discriminate | exact IH ].
Qed.

Section Records.
Context `{Target} `{HciAdapter} `{CommandCodes}.

(** A call without a null dereference submits [record_of] once. *)
Lemma invoke_record (this : Mgmt) (c : Call) (w : World) :
  null_safe c w ->
  exists dbg msg kS kU,
    invoke this c w = Some (submitted w (record_of this c w) dbg msg kS kU)
    /\ existsb is_warn dbg = false
    /\ (forall s, kShortName w = Some s -> kS = Some s)
    /\ (forall u, kUuid w = Some u -> kU = Some u).
Proof.
  intros S.
  destruct c as [n s|d t|cc ci ns|p|p|ns|p|p|p|ns|s [u|]]; cbn [invoke].
  1: rewrite setName_outcome.
  2: rewrite setDiscoverable_outcome.
  3: rewrite setState_outcome.
  4-10: unfold setPowered, setBredr, setSecureConnections, setBondable,
          setConnectable, setLE, setAdvertising; rewrite setState_outcome.
  11: rewrite addAdvertising_outcome_some.
  12: cbn in S; destruct (kUuid w) as [ku|] eqn:EU; [ | contradiction ];
      rewrite (addAdvertising_outcome_null _ _ ku) by exact EU;
      cbv zeta.
  1-10: eexists _, _, _, _; split; [ reflexivity | ];
        split; [ reflexivity | ]; split; intros x E; exact E.
  - eexists _, _, _, _. split; [ reflexivity | ].
    split; [ reflexivity | ]. split; intros x E; rewrite E; reflexivity.
  - eexists _, _, _, _. split.
    + unfold record_of, encoded_short_name. rewrite EU. reflexivity.
    + split; [ reflexivity | ].
      split; intros x E; [ rewrite E; reflexivity | congruence ].
Qed.

Lemma invoke_defined_null_safe (this : Mgmt) (c : Call) (w : World)
    (x : bool * World) :
  invoke this c w = Some x -> null_safe c w.
Proof.
  destruct c as [n s|d t|cc ci ns|p|p|ns|p|p|p|ns|s [u|]]; cbn; auto.
  intros E N. cbn [invoke] in E.
  rewrite addAdvertising_null_undefined in E by exact N. discriminate E.
Qed.

(** What a call that returns has done. *)
Lemma invoke_step (this : Mgmt) (c : Call) (w : World) (b : bool)
    (w1 : World) :
  invoke this c w = Some (b, w1) ->
  issued w1 = issued w ++ [record_of this c w]
  /\ sendCommand (record_of this c w) (adapter w) = (b, adapter w1)
  /\ length (filter is_warn (logged w1))
     = (length (filter is_warn (logged w)) + if b then 0 else 1)%nat
  /\ residue w1 = residue w.
Proof.
  intros E.
  destruct (invoke_record this c w (invoke_defined_null_safe _ _ _ _ E))
    as (dbg & msg & kS & kU & R & D & _).
  rewrite R in E.
  destruct (submitted_spec w (record_of this c w) dbg msg kS kU)
    as (b' & w' & S & A & I & L & _ & _ & Rs).
  rewrite S in E. injection E as <- <-.
  repeat split; try assumption.
  rewrite L, !filter_app, (filter_none _ _ D), !length_app.
  destruct b'; cbn; lia.
Qed.

Lemma to_uint16_range (z : Z) : is_uint16 (to_uint16 z).
Proof. unfold is_uint16, to_uint16. apply Z.mod_pos_bound. lia. Qed.

(** X1: the header of the record a call submits carries the opcode of the
    operation and the controller index of the object it was called on,
    both 16-bit values; [setState] alone takes both from its arguments. *)
Theorem header_names_operation_and_controller (this : Mgmt) (c : Call)
    (w : World) :
  well_typed this c ->
  null_safe c w ->
  exists b w' r,
    invoke this c w = Some (b, w')
    /\ issued w' = issued w ++ [r]
    /\ code (hdr r) = opcode_of c
    /\ controllerId (hdr r) = controller_of this c
    /\ is_uint16 (code (hdr r))
    /\ is_uint16 (controllerId (hdr r)).
Proof.
  intros (TI & TC) S.
  destruct (invoke_record this c w S) as (dbg & msg & kS & kU & R & _).
  destruct (submitted_spec w (record_of this c w) dbg msg kS kU)
    as (b & w' & E & _ & I & _).
  rewrite E in R.
  exists b, w', (record_of this c w).
  split; [ exact R | split; [ exact I | ] ].
  assert (HC : code (hdr (record_of this c w)) = opcode_of c
               /\ controllerId (hdr (record_of this c w)) = controller_of this c)
    by (destruct c as [n s|d t|cc ci ns|p|p|ns|p|p|p|ns|s u]; split; reflexivity).
  destruct HC as (-> & ->).
  split; [ reflexivity | split; [ reflexivity | split ] ].
  - destruct c as [n s|d t|cc ci ns|p|p|ns|p|p|p|ns|s u]; cbn [opcode_of];
      try apply to_uint16_range.
    exact (proj1 TC).
  - destruct c as [n s|d t|cc ci ns|p|p|ns|p|p|p|ns|s u]; cbn [controller_of];
      try exact TI.
    exact (proj1 (proj2 TC)).
Qed.

(** X2: a call of the [setState] family submits a payload of exactly one
    byte, the state asked for: 1 or 0 for the boolean setters, the given
    byte for the others. *)
Theorem state_setters_submit_the_state_byte (this : Mgmt) (c : Call)
    (w : World) (s : Z) :
  state_argument c = Some s ->
  0 <= s < 256 ->
  exists b w' r,
    invoke this c w = Some (b, w')
    /\ issued w' = issued w ++ [r]
    /\ payload r = [s]
    /\ body r = [s]
    /\ dataSize (hdr r) = 1.
Proof.
  intros A R.
  assert (S : null_safe c w) by (destruct c as [| | | | | | | | | |? [|]]; cbn; auto; discriminate A).
  destruct (invoke_record this c w S) as (dbg & msg & kS & kU & E & _).
  destruct (submitted_spec w (record_of this c w) dbg msg kS kU)
    as (b & w' & Sb & _ & I & _).
  rewrite Sb in E.
  exists b, w', (record_of this c w).
  split; [ exact E | split; [ exact I | ] ].
  assert (B : body (record_of this c w) = [s]
              /\ dataSize (hdr (record_of this c w)) = 1).
  { destruct c as [n x|d t|cc ci ns|p|p|ns|p|p|p|ns|x u];
      try discriminate A; cbn [record_of]; rewrite A;
      unfold SetStateRequest_packed; cbn [body hdr setState_request ss_state
                                          ss_hdr dataSize];
      rewrite repr_1, Z.mod_small by exact R; split; reflexivity. }
  destruct B as (B & D).
  rewrite payload_whole by (rewrite D, B; reflexivity).
  repeat split; assumption.
Qed.
End Records.

(* ------------------------------------------------------------------------- *)
(** ** Further properties: names *)

Lemma c_str_padded (text : list byte) (k : nat) :
  ~ In 0 text -> c_str (text ++ repeat 0 k) = text.
Proof.
  induction text as [|b r IH]; intros N.
  - destruct k; reflexivity.
  - cbn [app c_str]. destruct (Z.eqb_spec b 0) as [E | E].
    + exfalso. apply N. now left.
    + f_equal. apply IH. intros I. apply N. now right.
Qed.

Section Names.
Context `{Target} `{HciAdapter} `{CommandCodes}.

(** The two fields of the record of [setName], from the C strings of the
    arguments. *)
Lemma setName_fields_of_c_strings (this : Mgmt) (name shortName : string)
    (name0 shortName0 : list byte) :
  length name0 = 249%nat -> length shortName0 = 11%nat ->
  let r := setName_request this name shortName name0 shortName0 in
  let text := firstn 248 (c_str (string_bytes name)) in
  let short := firstn 10 (c_str (string_bytes shortName)) in
  sn_name r = text ++ repeat 0 (249 - length text)
  /\ sn_shortName r = short ++ repeat 0 (11 - length short).
Proof.
  intros L1 L2. cbv zeta.
  destruct (setName_request_fields this name shortName name0 shortName0 L1 L2)
    as (A & B & _).
  cbv zeta in A, B.
  rewrite string_bytes_truncateName, c_str_firstn in A.
  rewrite string_bytes_truncateShortName, c_str_firstn in B.
  split; assumption.
Qed.

(** X4: [setName] sees of each argument only the first 248 (10 for the
    short name) bytes of its C string: two calls whose arguments agree on
    those do the same. *)
Theorem setName_sees_c_string_prefixes (this : Mgmt)
    (name1 shortName1 name2 shortName2 : string) (w : World) :
  firstn 248 (c_str (string_bytes name1))
  = firstn 248 (c_str (string_bytes name2)) ->
  firstn 10 (c_str (string_bytes shortName1))
  = firstn 10 (c_str (string_bytes shortName2)) ->
  setName this name1 shortName1 w = setName this name2 shortName2 w.
Proof.
  intros EN ES. rewrite !setName_outcome. do 2 f_equal.
  unfold SetNameRequest_packed. f_equal.
  destruct (setName_fields_of_c_strings this name1 shortName1
              (local_array w 249) (local_array w 11)
              (length_uninit _ _) (length_uninit _ _)) as (A1 & B1).
  destruct (setName_fields_of_c_strings this name2 shortName2
              (local_array w 249) (local_array w 11)
              (length_uninit _ _) (length_uninit _ _)) as (A2 & B2).
  cbv zeta in A1, B1, A2, B2.
  rewrite A1, B1, A2, B2, EN, ES. reflexivity.
Qed.

(** X5: read back as C strings, the two fields of the payload of
    [setName] give the first 248 bytes of the name's C string and the
    first 10 of the short name's. *)
Theorem setName_fields_read_back (this : Mgmt) (name shortName : string)
    (w : World) :
  exists b w' r,
    setName this name shortName w = Some (b, w')
    /\ issued w' = issued w ++ [r]
    /\ c_str (firstn 249 (payload r)) = firstn 248 (c_str (string_bytes name))
    /\ c_str (skipn 249 (payload r))
       = firstn 10 (c_str (string_bytes shortName)).
Proof.
  rewrite setName_outcome.
  match goal with
  | |- context [submitted ?w ?r ?d ?m ?s ?u] =>
      destruct (submitted_spec w r d m s u) as (b & w' & -> & _ & I & _)
  end.
  eexists b, w', _. split; [ reflexivity | split; [ exact I | ] ].
  destruct (setName_body this name shortName (local_array w 249)
              (local_array w 11) (length_uninit _ _) (length_uninit _ _))
    as (_ & _ & _ & DS & LB).
  cbv zeta in DS, LB.
  rewrite payload_whole by (rewrite DS, LB; reflexivity).
  destruct (setName_fields_of_c_strings this name shortName
              (local_array w 249) (local_array w 11)
              (length_uninit _ _) (length_uninit _ _)) as (A & B).
  cbv zeta in A, B.
  unfold SetNameRequest_packed. cbn [body]. rewrite A, B.
  set (text := firstn 248 (c_str (string_bytes name))).
  set (short := firstn 10 (c_str (string_bytes shortName))).
  assert (NT : ~ In 0 text).
  { intros I0. apply (c_str_no_nul (string_bytes name)). eapply in_firstn, I0. }
  assert (NS : ~ In 0 short).
  { intros I0. apply (c_str_no_nul (string_bytes shortName)).
    eapply in_firstn, I0. }
  assert (LT : (length text <= 248)%nat) by (unfold text; rewrite length_firstn; lia).
  assert (LS : (length short <= 10)%nat) by (unfold short; rewrite length_firstn; lia).
  split.
  - rewrite firstn_exact by (apply length_padded; lia).
    now apply c_str_padded.
  - rewrite skipn_app, skipn_all2 by (rewrite length_padded; lia).
    rewrite length_padded by lia. rewrite Nat.sub_diag. cbn [skipn app].
    now apply c_str_padded.
Qed.
End Names.

(* ------------------------------------------------------------------------- *)
(** ** Further properties: records, programs and the statics *)

Section Programs.
Context `{Target} `{HciAdapter} `{CommandCodes}.

Lemma setName_packed_any_residue (this : Mgmt) (name shortName : string)
    (n1 s1 n2 s2 : list byte) :
  length n1 = 249%nat -> length s1 = 11%nat ->
  length n2 = 249%nat -> length s2 = 11%nat ->
  SetNameRequest_packed (setName_request this name shortName n1 s1)
  = SetNameRequest_packed (setName_request this name shortName n2 s2).
Proof.
  intros L1 L2 L3 L4. unfold SetNameRequest_packed. f_equal.
  destruct (setName_request_fields this name shortName n1 s1 L1 L2) as (A1 & B1 & _).
  destruct (setName_request_fields this name shortName n2 s2 L3 L4) as (A2 & B2 & _).
  cbv zeta in A1, B1, A2, B2. now rewrite A1, B1, A2, B2.
Qed.

Lemma addAdvertising_packed_any_residue (this : Mgmt) (shortName : string)
    (u : Z) (d1 d2 : list byte) :
  length d1 = ADVERTISING_MAX_DATALEN -> length d2 = ADVERTISING_MAX_DATALEN ->
  AddAdvertisingRequest_packed (addAdvertising_request this shortName u d1)
  = AddAdvertisingRequest_packed (addAdvertising_request this shortName u d2).
Proof.
  intros L1 L2. unfold AddAdvertisingRequest_packed.
  rewrite (addAdvertising_request_data this shortName u d1 L1).
  rewrite (addAdvertising_request_data this shortName u d2 L2).
  reflexivity.
Qed.

Lemma record_of_any_residue (this : Mgmt) (c : Call) (w : World)
    (junk : nat -> byte) :
  record_of this c (with_residue w junk) = record_of this c w.
Proof.
  destruct c as [n s|d t|cc ci ns|p|p|ns|p|p|p|ns|s u].
  1: apply setName_packed_any_residue; apply length_uninit.
  10: cbn [record_of]; apply addAdvertising_packed_any_residue;
      apply length_uninit.
  all: reflexivity.
Qed.

(** X6: nothing a local structure happened to hold before it was filled in
    reaches the transport: with any other contents of uninitialised
    memory, a call submits the same record and returns the same. *)
Theorem record_free_of_residue (this : Mgmt) (c : Call) (w : World)
    (junk : nat -> byte) :
  null_safe c w ->
  exists b r w1 w2,
    invoke this c w = Some (b, w1)
    /\ invoke this c (with_residue w junk) = Some (b, w2)
    /\ issued w1 = issued w ++ [r]
    /\ issued w2 = issued w ++ [r].
Proof.
  intros S.
  assert (S' : null_safe c (with_residue w junk))
    by (destruct c as [| | | | | | | | | |? [|]]; exact S).
  destruct (invoke_record this c w S) as (d1 & m1 & kS1 & kU1 & E1 & _).
  destruct (invoke_record this c _ S') as (d2 & m2 & kS2 & kU2 & E2 & _).
  rewrite record_of_any_residue in E2.
  destruct (submitted_spec w (record_of this c w) d1 m1 kS1 kU1)
    as (b1 & w1 & Q1 & A1 & I1 & _).
  destruct (submitted_spec (with_residue w junk) (record_of this c w) d2 m2 kS2 kU2)
    as (b2 & w2 & Q2 & A2 & I2 & _).
  rewrite Q1 in E1. rewrite Q2 in E2. cbn [with_residue adapter issued] in A2, I2.
  assert (b2 = b1) as -> by congruence.
  exists b1, (record_of this c w), w1, w2. auto.
Qed.

(** X7: whatever the short name, the payload length [addAdvertising]
    declares lies between 17 and 25 and the advertising-data length
    between 6 and 14, within the 25 bytes the structure holds behind its
    header; the lower ends are met by the empty short name alone, the
    upper ends by the short names of 8 bytes or more. *)
Theorem addAdvertising_lengths_within_structure (this : Mgmt)
    (shortName : string) (u : Z) (w : World) :
  exists b w' r,
    addAdvertising this shortName (Some u) w = Some (b, w')
    /\ issued w' = issued w ++ [r]
    /\ length (body r) = 25%nat
    /\ 17 <= dataSize (hdr r) <= 25
    /\ nth 9 (body r) 0 = dataSize (hdr r) - 11
    /\ (dataSize (hdr r) = 17 <-> shortName = EmptyString)
    /\ (dataSize (hdr r) = 25 <-> (8 <= String.length shortName)%nat).
Proof.
  rewrite addAdvertising_outcome_some.
  match goal with
  | |- context [submitted ?w ?r ?d ?m ?s ?u] =>
      destruct (submitted_spec w r d m s u) as (b & w' & -> & _ & I & _)
  end.
  eexists b, w', _. split; [ reflexivity | split; [ exact I | ] ].
  destruct (addAdvertising_body this shortName u
              (local_array w ADVERTISING_MAX_DATALEN) (length_uninit _ _))
    as (B & _ & DS & LF & LB).
  cbv zeta in B, DS, LF, LB.
  unfold ADVERTISING_SHORTNAME_MAX_LEN in B, DS, LF, LB.
  set (n := Nat.min 8 (String.length shortName)) in *.
  assert (N : (n <= 8)%nat) by (unfold n; lia).
  rewrite DS. split; [ | split; [ lia | split; [ | split ] ] ].
  - rewrite B, !length_app, LF, LB, repeat_length. lia.
  - rewrite B. unfold advertising_fixed_fields.
    assert (R4 : exists a b c d, repr native 4 3 = [a; b; c; d])
      by (destruct native; cbn; eauto 6).
    assert (R2 : exists a b, repr native 2 0 = [a; b])
      by (destruct native; cbn; eauto).
    destruct R4 as (a4 & b4 & c4 & d4 & ->). destruct R2 as (a2 & b2 & ->).
    cbn [app nth]. lia.
  - split.
    + intros E. assert (n = 0%nat) as Z0 by lia. unfold n in Z0.
      destruct shortName; [ reflexivity | cbn in Z0; lia ].
    + intros ->. cbn. reflexivity.
  - unfold n. lia.
Qed.

Lemma transport_answers_app (rs1 rs2 : list Request) (a : Transport) :
  transport_answers (rs1 ++ rs2) a
  = let '(bs1, a1) := transport_answers rs1 a in
    let '(bs2, a2) := transport_answers rs2 a1 in
    (bs1 ++ bs2, a2).
Proof.
  revert a; induction rs1 as [|r rs1 IH]; intros a; cbn [app transport_answers].
  - now destruct (transport_answers rs2 a).
  - destruct (sendCommand r a) as [b a1]. rewrite IH.
    destruct (transport_answers rs1 a1) as [bs1 a2].
    now destruct (transport_answers rs2 a2).
Qed.

(** X8: a program that runs to its end has given the transport one record
    per call, in call order; its results are the transport's answers to
    those records, the adapter is in the state those submissions left it
    in, and there is one more warning in the log for each [false]. *)
Theorem program_submits_one_record_per_call (calls : list (Mgmt * Call)) :
  forall (w : World) (bs : list bool) (w' : World),
    run calls w = Some (bs, w') ->
    exists rs,
      issued w' = issued w ++ rs
      /\ length rs = length calls
      /\ transport_answers rs (adapter w) = (bs, adapter w')
      /\ length (filter is_warn (logged w'))
         = (length (filter is_warn (logged w)) + length (filter negb bs))%nat
      /\ residue w' = residue w.
Proof.
  induction calls as [|[this c] rest IH]; intros w bs w' E.
  - cbn in E. unfold ret in E. injection E as <- <-.
    exists []. rewrite app_nil_r. cbn. repeat split; lia.
  - rewrite run_cons in E.
    destruct (invoke this c w) as [[b w1]|] eqn:E1; [ | discriminate E ].
    destruct (run rest w1) as [[bs1 w2]|] eqn:E2; [ | discriminate E ].
    injection E as <- <-.
    destruct (invoke_step this c w b w1 E1) as (I1 & A1 & L1 & R1).
    destruct (IH w1 bs1 w2 E2) as (rs & I2 & N2 & A2 & L2 & R2).
    exists (record_of this c w :: rs).
    split; [ rewrite I2, I1, <- app_assoc; reflexivity | ].
    split; [ cbn; lia | ].
    split; [ cbn [transport_answers]; rewrite A1, A2; reflexivity | ].
    split; [ | congruence ].
    rewrite L2, L1. destruct b; cbn; lia.
Qed.


(** X10: the statics of [addAdvertising], once initialised, are never
    written again: from then on every program runs to its end and leaves
    them as they were, calls with other names and UUIDs included. *)
Theorem statics_are_written_once (calls : list (Mgmt * Call)) (w : World)
    (ks : string) (ku : Z) :
  kShortName w = Some ks ->
  kUuid w = Some ku ->
  exists bs w',
    run calls w = Some (bs, w')
    /\ kShortName w' = Some ks
    /\ kUuid w' = Some ku.
Proof.
  intros ES EU. exact (run_initialised calls w ks ku ES EU).
Qed.

(** X11: an [Mgmt] constructed for a controller synchronises the adapter
    with that index before anything is submitted, submits nothing itself,
    and its calls then address that controller. *)
Theorem constructed_object_addresses_its_controller (idx : Z) (c : Call)
    (w : World) :
  well_typed {| controllerIndex := idx |} c ->
  null_safe c w ->
  exists this b w' r,
    construct_and_call idx c w = Some ((this, b), w')
    /\ controllerIndex this = idx
    /\ issued w' = issued w ++ [r]
    /\ sendCommand r (sync idx (adapter w)) = (b, adapter w')
    /\ controllerId (hdr r) = controller_of {| controllerIndex := idx |} c
    /\ is_uint16 (controllerId (hdr r)).
Proof.
  intros (TI & TC) S.
  unfold construct_and_call, Mgmt_new, bind, ret, HciAdapter_sync.
  set (w0 := {| adapter := sync idx (adapter w); issued := issued w;
                logged := logged w; kShortName := kShortName w;
                kUuid := kUuid w; residue := residue w |}).
  set (this := {| controllerIndex := idx |}) in *.
  assert (S0 : null_safe c w0)
    by (destruct c as [| | | | | | | | | |? [|]]; exact S).
  destruct (invoke_record this c w0 S0) as (dbg & msg & kS & kU & E & _).
  destruct (submitted_spec w0 (record_of this c w0) dbg msg kS kU)
    as (b & w' & Q & A & I & _).
  rewrite E, Q.
  exists this, b, w', (record_of this c w0).
  split; [ reflexivity | split; [ reflexivity | ] ].
  split; [ exact I | split; [ exact A | ] ].
  assert (HC : controllerId (hdr (record_of this c w0)) = controller_of this c)
    by (destruct c as [n s|d t|cc ci ns|p|p|ns|p|p|p|ns|s u]; reflexivity).
  rewrite HC. split; [ reflexivity | ].
  destruct c as [n s|d t|cc ci ns|p|p|ns|p|p|p|ns|s u]; cbn [controller_of];
    try exact TI.
  exact (proj1 (proj2 TC)).
Qed.

(** X12: a call of the [setState] family submits one record and returns
    the transport's answer to it; when the transport accepts the record
    the call logs nothing, and when it does not the call logs exactly one
    warning, which names the opcode by the adapter's table and gives the
    state asked for in decimal. *)
Theorem state_setters_warn_with_opcode_and_state (this : Mgmt) (c : Call)
    (w : World) (s : Z) :
  state_argument c = Some s ->
  well_typed this c ->
  exists b w' r,
    invoke this c w = Some (b, w')
    /\ issued w' = issued w ++ [r]
    /\ sendCommand r (adapter w) = (b, adapter w')
    /\ is_uint8 s
    /\ is_uint16 (opcode_of c)
    /\ logged w'
       = logged w
         ++ (if b then []
             else [(Warn, ("  + Failed to set " ++ kCommandCodeNames (opcode_of c)
                           ++ " state to: " ++ decimal s)%string)]).
Proof.
  intros A (TI & TC).
  assert (RS : is_uint8 s).
  { destruct c as [n x|d t|cc ci ns|[|]|[|]|ns|[|]|[|]|[|]|ns|x u];
      try discriminate A; injection A as <-;
      first [ exact TC | exact (proj2 (proj2 TC)) | (unfold is_uint8; lia) ]. }
  assert (RC : is_uint16 (opcode_of c)).
  { destruct c as [n x|d t|cc ci ns|p|p|ns|p|p|p|ns|x u]; cbn [opcode_of];
      try apply to_uint16_range.
    exact (proj1 TC). }
  destruct c as [n x|d t|cc ci ns|p|p|ns|p|p|p|ns|x u];
    try discriminate A; injection A as <-; cbn [invoke];
    unfold setPowered, setBredr, setSecureConnections, setBondable,
      setConnectable, setLE, setAdvertising;
    rewrite setState_outcome;
    match goal with
    | |- context [submitted ?w ?r ?d ?m ?s ?u] =>
        destruct (submitted_spec w r d m s u) as (b & w' & -> & T & I & L & _);
        exists b, w', r
    end;
    (split; [ reflexivity | ]);
    (split; [ exact I | ]);
    (split; [ exact T | ]);
    (split; [ exact RS | ]);
    (split; [ exact RC | ]);
    rewrite L, app_nil_r; reflexivity.
Qed.
End Programs.

(* ------------------------------------------------------------------------- *)
(** ** The contract on the concrete platform *)

#[local] Existing Instance le_target.
#[local] Existing Instance scripted_adapter.
#[local] Existing Instance kernel_codes.

(** C1 (as stated) fails: after advertising "A" with UUID 1 and then "B"
    with UUID 2, a call with a null UUID pointer encodes "A" and 1, the
    first pair, and not "B" and 2, the most recent one. *)
Lemma null_call_ignores_most_recent_call :
  last_advertising_non_null two_advertisements = Some ("B"%string, 2)
  /\ exists bs w b w' r,
       run two_advertisements (boot []) = Some (bs, w)
       /\ addAdvertising hci0 "C" None w = Some (b, w')
       /\ issued w' = issued w ++ [r]
       /\ payload r = [1; 3; 0; 0; 0; 0; 0; 0; 0; 7; 0; 3; 3; 1; 0; 2; 8; 65]
       /\ r = AddAdvertisingRequest_packed
                (addAdvertising_request hci0 "A" 1
                   (local_array w ADVERTISING_MAX_DATALEN))
       /\ r <> AddAdvertisingRequest_packed
                 (addAdvertising_request hci0 "B" 2
                    (local_array w ADVERTISING_MAX_DATALEN)).
Proof.
  split; [ reflexivity | ].
  eexists _, _, _, _, _.
  split; [ vm_compute; reflexivity | ].
  split; [ vm_compute; reflexivity | ].
  split; [ vm_compute; reflexivity | ].
  split; [ vm_compute; reflexivity | ].
  split; [ vm_compute; reflexivity | ].
  vm_compute. intros E. discriminate E.
Qed.

Lemma null_call_reuses_first_call_witness :
  first_advertising two_advertisements = Some ("A"%string, Some 1)
  /\ exists bs w b w',
       run two_advertisements (boot []) = Some (bs, w)
       /\ addAdvertising hci0 "C" None w = Some (b, w')
       /\ issued w'
          = issued w
            ++ [AddAdvertisingRequest_packed
                  (addAdvertising_request hci0 "A" 1
                     (local_array w ADVERTISING_MAX_DATALEN))].
Proof.
  split; [ reflexivity | ].
  apply (@null_call_reuses_first_call le_target scripted_adapter kernel_codes
           two_advertisements (@nil bool) (fun _ => 0xAA) hci0 "C" "A" 1).
  reflexivity.
Defined.

(** "ABC" and a 16-bit UUID: a block of nine bytes, and an advertising-data
    length five under the maximum. *)
Lemma addAdvertising_payload_layout_witness :
  exists b w' r,
    addAdvertising hci0 "ABC" (Some 0x180F) (boot []) = Some (b, w')
    /\ issued w' = [r]
    /\ payload r = [1; 3; 0; 0; 0; 0; 0; 0; 0; 14 - (8 - 3); 0;
                    3; 3; 0x0F; 0x18; 4; 8; 65; 66; 67]
    /\ length [3; 3; 0x0F; 0x18; 4; 8; 65; 66; 67] = 9%nat.
Proof.
  destruct (@addAdvertising_payload_layout le_target scripted_adapter
              kernel_codes hci0 "ABC" 0x180F (boot []))
    as (b & w' & r & E & I & P & _ & _).
  exists b, w', r. split; [ exact E | ]. split; [ exact I | ].
  split; [ exact P | reflexivity ].
Defined.

Lemma declared_length_is_payload_length_witness :
  null_safe (CallAddAdvertising "ABC" (Some 0x180F)) (boot [false])
  /\ exists b w' r,
       invoke hci0 (CallAddAdvertising "ABC" (Some 0x180F)) (boot [false])
       = Some (b, w')
       /\ issued w' = issued (boot [false]) ++ [r]
       /\ dataSize (hdr r) = Z.of_nat (length (payload r))
       /\ body r = payload r ++ repeat 0 5
       /\ dataSize (hdr r) = Z.of_nat (length (body r)) - 5.
Proof.
  split; [ exact I | ].
  exact (@declared_length_is_payload_length le_target scripted_adapter
           kernel_codes hci0 (CallAddAdvertising "ABC" (Some 0x180F))
           (boot [false]) I).
Defined.

Lemma setName_payload_layout_witness :
  exists b w' r,
    setName hci0 long_name "Short" (boot []) = Some (b, w')
    /\ issued w' = [r]
    /\ payload r = repeat 110 248 ++ [0] ++ [83; 104; 111; 114; 116] ++ repeat 0 6
    /\ length (payload r) = (249 + 11)%nat
    /\ dataSize (hdr r) = 260.
Proof.
  destruct (setName_payload_layout hci0 long_name "Short" (boot []))
    as (b & w' & r & E & I & P & _ & _ & _ & _ & _ & D & _).
  exists b, w', r. split; [ exact E | ]. split; [ exact I | ].
  rewrite P. split; [ vm_compute; reflexivity | ].
  split; [ vm_compute; reflexivity | exact D ].
Defined.

Lemma truncate_prefix_or_same_witness :
  truncateName long_name = substr0 long_name 248
  /\ String.length (truncateName long_name) = 248%nat
  /\ truncateName "Short" = "Short"%string
  /\ truncateShortName long_name = "nnnnnnnnnn"%string
  /\ truncateShortName ten_chars = ten_chars.
Proof.
  destruct (truncate_prefix_or_same long_name) as (A & _ & C & _).
  destruct (truncate_prefix_or_same "Short") as (_ & B & _ & _).
  destruct (truncate_prefix_or_same ten_chars) as (_ & _ & _ & D).
  destruct A as (A1 & A2 & _); [ apply Nat.ltb_lt; reflexivity | ].
  destruct C as (C1 & _); [ apply Nat.ltb_lt; reflexivity | ].
  split; [ exact A1 | ]. split; [ exact A2 | ].
  split; [ apply B; apply Nat.leb_le; reflexivity | ].
  split; [ rewrite C1; reflexivity | ].
  apply D. apply Nat.leb_le. reflexivity.
Defined.



(** Limited-discoverable with a zero timeout goes out as it is. *)
Lemma setDiscoverable_payload_verbatim_witness :
  0 <= 2 < 256 /\ 0 <= 0 < 65536
  /\ exists b w' r,
       setDiscoverable hci0 2 0 (boot []) = Some (b, w')
       /\ issued w' = issued (boot []) ++ [r]
       /\ payload r = [2] ++ repr native 2 0
       /\ body r = payload r
       /\ dataSize (hdr r) = 3
       /\ value native (repr native 2 0) = 0.
Proof.
  split; [ lia | ]. split; [ lia | ].
  apply (@setDiscoverable_payload_verbatim le_target scripted_adapter
           kernel_codes hci0 2 0 (boot [])); lia.
Defined.

Lemma first_call_decides_null_dereference_witness :
  (exists bs w, run two_advertisements (boot []) = Some (bs, w))
  /\ run null_first (boot []) = None.
Proof.
  split.
  - destruct (@first_call_decides_null_dereference le_target scripted_adapter
                kernel_codes two_advertisements (@nil bool) (fun _ => 0xAA))
      as (A & _).
    apply A. intros s E. discriminate E.
  - destruct (@first_call_decides_null_dereference le_target scripted_adapter
                kernel_codes null_first (@nil bool) (fun _ => 0xAA))
      as (_ & B).
    apply (B "A"%string). reflexivity.
Defined.

Lemma addAdvertising_caps_short_name_at_8_witness :
  (String.length ten_chars = 9%nat \/ String.length ten_chars = 10%nat)
  /\ truncateShortName ten_chars = ten_chars
  /\ exists b w' r,
       addAdvertising hci0 ten_chars (Some 0x180F) (boot []) = Some (b, w')
       /\ issued w' = issued (boot []) ++ [r]
       /\ payload r
          = advertising_fixed_fields 14
              ++ [3; 3] ++ repr native 2 0x180F ++ [9; 8]
              ++ string_bytes (substr0 ten_chars 8)
       /\ length (string_bytes (substr0 ten_chars 8)) = 8%nat.
Proof.
  split; [ right; reflexivity | ].
  apply (@addAdvertising_caps_short_name_at_8 le_target scripted_adapter
           kernel_codes hci0 ten_chars 0x180F (boot [])).
  right. reflexivity.
Defined.

(* ------------------------------------------------------------------------- *)
(** ** The further properties on the concrete platform *)

Lemma header_names_operation_and_controller_witness :
  well_typed hci0 (CallSetState 0x000D 7 1)
  /\ null_safe (CallSetState 0x000D 7 1) (boot [])
  /\ exists b w' r,
       invoke hci0 (CallSetState 0x000D 7 1) (boot []) = Some (b, w')
       /\ issued w' = issued (boot []) ++ [r]
       /\ code (hdr r) = 0x000D
       /\ controllerId (hdr r) = 7
       /\ is_uint16 (code (hdr r))
       /\ is_uint16 (controllerId (hdr r)).
Proof.
  assert (T : well_typed hci0 (CallSetState 0x000D 7 1))
    by (unfold well_typed, is_uint16, is_uint8; simpl; lia).
  split; [ exact T | ]. split; [ exact I | ].
  exact (@header_names_operation_and_controller le_target scripted_adapter
           kernel_codes hci0 (CallSetState 0x000D 7 1) (boot []) T I).
Defined.

Lemma state_setters_submit_the_state_byte_witness :
  state_argument (CallSetPowered true) = Some 1
  /\ 0 <= 1 < 256
  /\ exists b w' r,
       invoke hci0 (CallSetPowered true) (boot [false]) = Some (b, w')
       /\ issued w' = issued (boot [false]) ++ [r]
       /\ payload r = [1]
       /\ body r = [1]
       /\ dataSize (hdr r) = 1.
Proof.
  split; [ reflexivity | ]. split; [ lia | ].
  apply (@state_setters_submit_the_state_byte le_target scripted_adapter
           kernel_codes hci0 (CallSetPowered true) (boot [false]) 1);
    [ reflexivity | lia ].
Defined.

(** What follows a NUL, or the maximum, makes no difference. *)
Lemma setName_sees_c_string_prefixes_witness :
  firstn 248 (c_str (string_bytes nul_name))
  = firstn 248 (c_str (string_bytes "ab"))
  /\ firstn 10 (c_str (string_bytes long_name))
     = firstn 10 (c_str (string_bytes "nnnnnnnnnn"))
  /\ setName hci0 nul_name long_name (boot [])
     = setName hci0 "ab" "nnnnnnnnnn" (boot []).
Proof.
  split; [ reflexivity | ]. split; [ reflexivity | ].
  apply (setName_sees_c_string_prefixes hci0 nul_name long_name
           "ab" "nnnnnnnnnn" (boot [])); reflexivity.
Defined.

Lemma record_free_of_residue_witness :
  null_safe (CallSetName "ab" "cd") (boot [])
  /\ exists b r w1 w2,
       invoke hci0 (CallSetName "ab" "cd") (boot []) = Some (b, w1)
       /\ invoke hci0 (CallSetName "ab" "cd")
                 (with_residue (boot []) (fun _ => 0)) = Some (b, w2)
       /\ issued w1 = issued (boot []) ++ [r]
       /\ issued w2 = issued (boot []) ++ [r].
Proof.
  split; [ exact I | ].
  exact (@record_free_of_residue le_target scripted_adapter kernel_codes
           hci0 (CallSetName "ab" "cd") (boot []) (fun _ => 0) I).
Defined.

Lemma program_submits_one_record_per_call_witness :
  exists bs w',
    run two_advertisements (boot [false; true]) = Some (bs, w')
    /\ exists rs,
         issued w' = issued (boot [false; true]) ++ rs
         /\ length rs = length two_advertisements
         /\ transport_answers rs (adapter (boot [false; true]))
            = (bs, adapter w')
         /\ length (filter is_warn (logged w'))
            = (length (filter is_warn (logged (boot [false; true])))
               + length (filter negb bs))%nat
         /\ residue w' = residue (boot [false; true]).
Proof.
  eexists _, _. split; [ vm_compute; reflexivity | ].
  eapply (@program_submits_one_record_per_call le_target scripted_adapter
            kernel_codes two_advertisements).
  vm_compute. reflexivity.
Defined.

Lemma statics_are_written_once_witness :
  kShortName after_two_advertisements = Some "A"%string
  /\ kUuid after_two_advertisements = Some 1
  /\ exists bs w',
       run [ (hci0, CallAddAdvertising "Z" (Some 9));
             (hci0, CallAddAdvertising "C" None) ] after_two_advertisements
       = Some (bs, w')
       /\ kShortName w' = Some "A"%string
       /\ kUuid w' = Some 1.
Proof.
  split; [ reflexivity | ]. split; [ reflexivity | ].
  apply (@statics_are_written_once le_target scripted_adapter kernel_codes
           [ (hci0, CallAddAdvertising "Z" (Some 9));
             (hci0, CallAddAdvertising "C" None) ]
           after_two_advertisements "A" 1); reflexivity.
Defined.

Lemma constructed_object_addresses_its_controller_witness :
  well_typed {| controllerIndex := 1 |} (CallSetBondable false)
  /\ null_safe (CallSetBondable false) (boot [])
  /\ exists this b w' r,
       construct_and_call 1 (CallSetBondable false) (boot [])
       = Some ((this, b), w')
       /\ controllerIndex this = 1
       /\ issued w' = issued (boot []) ++ [r]
       /\ sendCommand r (sync 1 (adapter (boot []))) = (b, adapter w')
       /\ controllerId (hdr r) = 1
       /\ is_uint16 (controllerId (hdr r)).
Proof.
  assert (T : well_typed {| controllerIndex := 1 |} (CallSetBondable false))
    by (unfold well_typed, is_uint16; simpl; lia).
  split; [ exact T | ]. split; [ exact I | ].
  exact (@constructed_object_addresses_its_controller le_target
           scripted_adapter kernel_codes 1 (CallSetBondable false) (boot [])
           T I).
Defined.

Lemma state_setters_warn_with_opcode_and_state_witness :
  state_argument (CallSetAdvertising 2) = Some 2
  /\ well_typed hci0 (CallSetAdvertising 2)
  /\ exists b w' r,
       invoke hci0 (CallSetAdvertising 2) (boot [false]) = Some (b, w')
       /\ issued w' = issued (boot [false]) ++ [r]
       /\ sendCommand r (adapter (boot [false])) = (b, adapter w')
       /\ is_uint8 2
       /\ is_uint16 (opcode_of (CallSetAdvertising 2))
       /\ logged w'
          = logged (boot [false])
            ++ (if b then []
                else [(Warn, "  + Failed to set Command state to: 2"%string)]).
Proof.
  assert (T : well_typed hci0 (CallSetAdvertising 2))
    by (unfold well_typed, is_uint16, is_uint8; simpl; lia).
  split; [ reflexivity | ]. split; [ exact T | ].
  exact (@state_setters_warn_with_opcode_and_state le_target scripted_adapter
           kernel_codes hci0 (CallSetAdvertising 2) (boot [false]) 2
           eq_refl T).
Defined.
